(** * Verification model of the Iroquois OAC ingestion pipeline

    Shallow embedding of the three pipeline scripts:
    - [fetch_iroquois_oac.py]  (backfill to a CSV file),
    - [update_db.py]           (daily incremental updater),
    - [load_csv_to_supabase.py] (bulk CSV loader, batched upsert).

    Python values decoded from JSON are [pyval]; Python exceptions are
    [exc]; code that may raise returns a [result]. *)

From Stdlib Require Import ZArith String Ascii List Bool Lia.
From Stdlib Require Import Numbers.DecimalString Numbers.DecimalPos.
Import ListNotations.
Open Scope string_scope.
Open Scope Z_scope.
Set Warnings "-register-all".

(* ------------------------------------------------------------------ *)
(** ** Python values and exceptions *)

(** A Python [float] produced by [float(str)]: the decimal literal is kept
    exactly as sign, digits and decimal exponent (binary64 rounding is not
    modelled); [inf] and [nan] are separate. *)
Inductive pyfloat :=
| Fin (neg : bool) (mant : Z) (exp10 : Z)
| Inf (neg : bool)
| NaN.

(** The Python values a JSON body decodes to ([dict] keeps insertion
    order, as Python's [dict] does). *)
Inductive pyval :=
| PNone
| PBool (b : bool)
| PInt (z : Z)
| PFloat (f : pyfloat)
| PStr (s : string)
| PList (l : list pyval)
| PDict (kv : list (string * pyval)).

Definition dict := list (string * pyval).

(** The exception classes the scripts can meet.  [JSONDecodeError] is
    [requests.exceptions.JSONDecodeError], which derives from both
    [InvalidJSONError] (a [RequestException]) and [json.JSONDecodeError]
    (a [ValueError]).  [StoreError] is any error raised by the Supabase
    client.  [OSError] is what [open] raises on a file it cannot open
    (a directory, no permission); [UnicodeDecodeError], a [ValueError], is
    what reading a text file that is not valid UTF-8 raises.
    [KeyboardInterrupt] and [SystemExit] are [BaseException]s but not
    [Exception]s. *)
Inductive exc :=
| RequestException
| HTTPError
| JSONDecodeError
| ValueError
| KeyError
| NameError
| AttributeError
| TypeError
| StoreError
| OSError
| UnicodeDecodeError
| KeyboardInterrupt
| SystemExit.

Definition is_RequestException (e : exc) : bool :=
  match e with
  | RequestException | HTTPError | JSONDecodeError => true
  | _ => false
  end.

Definition is_ValueError (e : exc) : bool :=
  match e with ValueError | JSONDecodeError | UnicodeDecodeError => true | _ => false end.

Definition is_KeyError (e : exc) : bool :=
  match e with KeyError => true | _ => false end.

Definition is_Exception (e : exc) : bool :=
  match e with KeyboardInterrupt | SystemExit => false | _ => true end.

Inductive result (A : Type) :=
| Ok (a : A)
| Raise (e : exc).
Arguments Ok {A} a.
Arguments Raise {A} e.

Definition bind {A B} (m : result A) (k : A -> result B) : result B :=
  match m with Ok a => k a | Raise e => Raise e end.

Notation "x <- m ;; k" := (bind m (fun x => k))
  (at level 61, m at next level, right associativity).

(** [mapM] of the exception monad: stops at the first exception. *)
Fixpoint mapR {A B} (f : A -> result B) (l : list A) : result (list B) :=
  match l with
  | [] => Ok []
  | x :: r => y <- f x ;; ys <- mapR f r ;; Ok (y :: ys)
  end.

(** Truthiness ([bool(v)]). *)
Definition py_truthy (v : pyval) : bool :=
  match v with
  | PNone => false
  | PBool b => b
  | PInt z => negb (z =? 0)
  | PFloat (Fin _ m _) => negb (m =? 0)
  | PFloat _ => true
  | PStr s => negb (String.eqb s "")
  | PList l => match l with [] => false | _ => true end
  | PDict d => match d with [] => false | _ => true end
  end.

(** [v == 1] (so [1], [True] and [1.0] all compare equal to [1]). *)
Definition py_eq_one (v : pyval) : bool :=
  match v with
  | PInt z => z =? 1
  | PBool b => b
  | PFloat (Fin false m e) =>
      if 0 <=? e then m * 10 ^ e =? 1 else m =? 10 ^ (- e)
  | _ => false
  end.

(** [v in (None, 1)] *)
Definition in_None_or_1 (v : pyval) : bool :=
  match v with PNone => true | _ => py_eq_one v end.

(* ------------------------------------------------------------------ *)
(** ** dict operations *)

Fixpoint dict_get (d : dict) (k : string) : option pyval :=
  match d with
  | [] => None
  | (k', v) :: r => if String.eqb k k' then Some v else dict_get r k
  end.

(** [d[k] = v]: replaces the value in place when [k] is present, appends
    otherwise. *)
Fixpoint dict_set (d : dict) (k : string) (v : pyval) : dict :=
  match d with
  | [] => [(k, v)]
  | (k', v') :: r =>
      if String.eqb k k' then (k', v) :: r else (k', v') :: dict_set r k v
  end.

(** [d.get(k, default)] *)
Definition dict_get_default (d : dict) (k : string) (dflt : pyval) : pyval :=
  match dict_get d k with Some v => v | None => dflt end.

Definition dict_mem (k : string) (d : dict) : bool :=
  match dict_get d k with Some _ => true | None => false end.

(* ------------------------------------------------------------------ *)
(** ** String helpers: [str.strip], [str.replace(",", "")] *)

(** [str.isspace] on one character (code points 0..255). *)
Definition is_space (c : ascii) : bool :=
  let n := nat_of_ascii c in
  ((9 <=? n) && (n <=? 13))%nat || ((28 <=? n) && (n <=? 32))%nat
  || (n =? 133)%nat || (n =? 160)%nat.

Fixpoint lstrip (s : string) : string :=
  match s with
  | EmptyString => EmptyString
  | String c r => if is_space c then lstrip r else s
  end.

Fixpoint rstrip (s : string) : string :=
  match s with
  | EmptyString => EmptyString
  | String c r =>
      let r' := rstrip r in
      if String.eqb r' "" && is_space c then "" else String c r'
  end.

(** [s.strip()] *)
Definition py_strip (s : string) : string := rstrip (lstrip s).

(** [s.replace(",", "")] *)
Fixpoint remove_commas (s : string) : string :=
  match s with
  | EmptyString => EmptyString
  | String c r =>
      if Ascii.eqb c ","%char then remove_commas r else String c (remove_commas r)
  end.

(* ------------------------------------------------------------------ *)
(** ** [int(str)] and [float(str)] *)

Definition is_digit (c : ascii) : bool :=
  let n := nat_of_ascii c in ((48 <=? n) && (n <=? 57))%nat.

Definition digit_val (c : ascii) : Z := Z.of_nat (nat_of_ascii c) - 48.

(** Scans a maximal run [digit (_? digit)*]; returns its value, the number
    of digits read and the rest of the string.  An underscore that is not
    between two digits stops the scan (and is left in the rest). *)
Fixpoint scan_digits (s : string) (acc : Z) (n : nat) : Z * nat * string :=
  match s with
  | EmptyString => (acc, n, EmptyString)
  | String c r =>
      if is_digit c then scan_digits r (acc * 10 + digit_val c) (S n)
      else if Ascii.eqb c "_"%char then
        match n, r with
        | S _, String c2 _ =>
            if is_digit c2 then scan_digits r acc n else (acc, n, s)
        | _, _ => (acc, n, s)
        end
      else (acc, n, s)
  end.

(** Optional leading sign. *)
Definition scan_sign (s : string) : bool * string :=
  match s with
  | String c r =>
      if Ascii.eqb c "-"%char then (true, r)
      else if Ascii.eqb c "+"%char then (false, r)
      else (false, s)
  | EmptyString => (false, s)
  end.

(** [int(s)] in base 10: surrounding whitespace, an optional sign and
    digits with single underscores between them; [None] is [ValueError]. *)
Definition int_parse (s : string) : option Z :=
  let '(neg, r) := scan_sign (py_strip s) in
  let '(v, n, rest) := scan_digits r 0 0 in
  match n, rest with
  | S _, EmptyString => Some (if neg then - v else v)
  | _, _ => None
  end.

Definition lower_ascii (c : ascii) : ascii :=
  let n := nat_of_ascii c in
  if ((65 <=? n) && (n <=? 90))%nat then ascii_of_nat (n + 32) else c.

Fixpoint lower (s : string) : string :=
  match s with
  | EmptyString => EmptyString
  | String c r => String (lower_ascii c) (lower r)
  end.

(** Optional exponent part [e[+-]digits] at the end of a float literal. *)
Definition scan_exponent (s : string) : option Z :=
  match s with
  | EmptyString => Some 0
  | String c r =>
      if Ascii.eqb c "e"%char || Ascii.eqb c "E"%char then
        let '(neg, r1) := scan_sign r in
        let '(v, n, rest) := scan_digits r1 0 0 in
        match n, rest with
        | S _, EmptyString => Some (if neg then - v else v)
        | _, _ => None
        end
      else None
  end.

(** [float(s)]: surrounding whitespace, an optional sign, then [inf],
    [infinity] or [nan] in any case, or a decimal literal
    [digits? (. digits?)? (e[+-]digits)?] with at least one digit. *)
Definition float_parse (s : string) : option pyfloat :=
  let '(neg, r) := scan_sign (py_strip s) in
  let lr := lower r in
  if String.eqb lr "inf" || String.eqb lr "infinity" then Some (Inf neg)
  else if String.eqb lr "nan" then Some NaN
  else
    let '(ip, ni, r1) := scan_digits r 0 0 in
    let '(fp, nf, r2) :=
      match r1 with
      | String c r1' =>
          if Ascii.eqb c "."%char then scan_digits r1' 0 0 else (0, O, r1)
      | EmptyString => (0, O, r1)
      end in
    match (ni + nf)%nat with
    | O => None
    | S _ =>
        match scan_exponent r2 with
        | Some e => Some (Fin neg (ip * 10 ^ Z.of_nat nf + fp) (e - Z.of_nat nf))
        | None => None
        end
    end.

(* ------------------------------------------------------------------ *)
(** ** Numeric cleaning *)

(** [update_db.clean_numeric] *)
Definition clean_numeric (value : pyval) : pyval :=
  match value with
  | PStr s =>
      let stripped := py_strip (remove_commas s) in
      match int_parse stripped with
      | Some n => PInt n
      | None =>
          match float_parse stripped with
          | Some f => PFloat f
          | None => if String.eqb s "" then PNone else value
          end
      end
  | _ => value          (* [value != ""] holds for every non-str value *)
  end.

(** [fetch_iroquois_oac.clean_numeric]: keeps the stripped text when it
    parses, the original value otherwise. *)
Definition clean_numeric_iroq (value : pyval) : pyval :=
  match value with
  | PStr s =>
      let stripped := py_strip (remove_commas s) in
      match int_parse stripped with
      | Some _ => PStr stripped
      | None =>
          match float_parse stripped with
          | Some _ => PStr stripped
          | None => value
          end
      end
  | _ => value
  end.

(** [load_csv_to_supabase.coerce_numeric] *)
Definition coerce_numeric (val : pyval) : pyval :=
  match val with
  | PNone => PNone
  | PStr s =>
      if String.eqb s "" then PNone
      else
        let stripped := py_strip (remove_commas s) in
        match int_parse stripped with
        | Some n => PInt n
        | None =>
            match float_parse stripped with
            | Some f => PFloat f
            | None => val
            end
        end
  | _ => val
  end.

(* ------------------------------------------------------------------ *)
(** ** Column tables *)

(** [fetch_iroquois_oac.CSV_COLUMNS] *)
Definition CSV_COLUMNS : list string :=
  ["gas_date"; "Posting Date"; "Posting Time"; "Loc"; "Loc Name";
   "Loc/QTI Desc"; "Loc Purp Desc"; "Flow Ind Desc"; "Meas Basis Desc";
   "IT Indicator"; "All Qty Avail"; "Design Capacity"; "Operating Capacity";
   "Total Scheduled Quantity"; "OAC"].

(** [update_db.COL_MAP] *)
Definition COL_MAP : list (string * string) :=
  [("Posting Date", "posting_date");
   ("Posting Time", "posting_time");
   ("Loc", "loc");
   ("Loc Name", "loc_name");
   ("Loc/QTI Desc", "loc_qti_desc");
   ("Loc Purp Desc", "loc_purp_desc");
   ("Flow Ind Desc", "flow_ind_desc");
   ("Meas Basis Desc", "meas_basis_desc");
   ("IT Indicator", "it_indicator");
   ("All Qty Avail", "all_qty_avail");
   ("Design Capacity", "design_capacity");
   ("Operating Capacity", "operating_capacity");
   ("Total Scheduled Quantity", "total_scheduled_quantity");
   ("OAC", "oac")].

(** [update_db.NUMERIC_COLS] *)
Definition NUMERIC_COLS : list string :=
  ["design_capacity"; "operating_capacity"; "total_scheduled_quantity";
   "oac"; "loc"].

Definition str_mem (x : string) (l : list string) : bool :=
  existsb (String.eqb x) l.

(* ------------------------------------------------------------------ *)
(** ** Dates and [strftime] *)

Record date := mkdate { year : Z; month : Z; day : Z }.

Definition is_leap (y : Z) : bool :=
  ((y mod 4 =? 0) && negb (y mod 100 =? 0)) || (y mod 400 =? 0).

Definition days_in_month (y m : Z) : Z :=
  if m =? 2 then (if is_leap y then 29 else 28)
  else if (m =? 4) || (m =? 6) || (m =? 9) || (m =? 11) then 30
  else 31.

(** [d + timedelta(days=1)] *)
Definition next_day (d : date) : date :=
  if day d <? days_in_month (year d) (month d) then mkdate (year d) (month d) (day d + 1)
  else if month d <? 12 then mkdate (year d) (month d + 1) 1
  else mkdate (year d + 1) 1 1.

(** [d - timedelta(days=1)] *)
Definition prev_day (d : date) : date :=
  if 1 <? day d then mkdate (year d) (month d) (day d - 1)
  else if 1 <? month d then mkdate (year d) (month d - 1) (days_in_month (year d) (month d - 1))
  else mkdate (year d - 1) 12 31.

(** [d - timedelta(days=n)] *)
Fixpoint sub_days (d : date) (n : nat) : date :=
  match n with O => d | S k => prev_day (sub_days d k) end.

(** [a <= b] on dates. *)
Definition date_le (a b : date) : bool :=
  (year a <? year b)
  || ((year a =? year b) && ((month a <? month b)
                             || ((month a =? month b) && (day a <=? day b)))).

(** Number of days since 0001-01-01 (used only to bound loops). *)
Definition ordinal (d : date) : Z :=
  let y := year d - 1 in
  y * 365 + y / 4 - y / 100 + y / 400
  + fold_left (fun acc m => acc + days_in_month (year d) m)
      (map Z.of_nat (seq 1 (Z.to_nat (month d - 1)))) 0
  + day d.

Definition digit_char (n : Z) : ascii := ascii_of_nat (48 + Z.to_nat (n mod 10)).

Definition pad2 (n : Z) : string :=
  String (digit_char (n / 10)) (String (digit_char n) EmptyString).

Definition pad4 (n : Z) : string :=
  String (digit_char (n / 1000)) (String (digit_char (n / 100))
    (String (digit_char (n / 10)) (String (digit_char n) EmptyString))).

(** [d.strftime("%Y-%m-%d")] for the four-digit years both mains pass
    (every query date is on or after 2010-01-01). *)
Definition strftime_Y_m_d (d : date) : string :=
  pad4 (year d) ++ "-" ++ pad2 (month d) ++ "-" ++ pad2 (day d).

(** Python [date] validity: [date(y, m, d)] accepts exactly these. *)
Definition valid_date (d : date) : bool :=
  (1 <=? year d) && (year d <=? 9999) && (1 <=? month d) && (month d <=? 12)
  && (1 <=? day d) && (day d <=? days_in_month (year d) (month d)).

(* ------------------------------------------------------------------ *)
(** ** [fetch_day]: response shape *)

(** [sorted(keys, key=...)] once the keys are computed: a stable insertion
    sort on the integer key. *)
Fixpoint insert_by_key (x : Z * string) (l : list (Z * string)) : list (Z * string) :=
  match l with
  | [] => [x]
  | y :: r => if fst y <=? fst x then y :: insert_by_key x r else x :: l
  end.

Definition sort_by_key (l : list (Z * string)) : list (Z * string) :=
  fold_right insert_by_key [] (rev l).

(** [key=lambda x: int(x)] applied to every key before sorting. *)
Definition int_key (k : string) : result (Z * string) :=
  match int_parse k with Some n => Ok (n, k) | None => Raise ValueError end.

(** The filter [str(x).isdigit()] of the comprehension: [x] is the lambda's
    parameter and is not bound in the comprehension, nor in [fetch_day],
    nor at module level, so evaluating it raises [NameError]. *)
Definition comprehension_filter (k : string) : result bool := Raise NameError.

(** [[raw[k] for k in keys if str(x).isdigit()]] *)
Fixpoint comprehension (raw : dict) (keys : list string) : result (list pyval) :=
  match keys with
  | [] => Ok []
  | k :: r =>
      b <- comprehension_filter k ;;
      rest_of <- (if b then
                    match dict_get raw k with
                    | Some v => Ok [v]
                    | None => Raise KeyError
                    end
                  else Ok []) ;;
      tl <- comprehension raw r ;;
      Ok (rest_of ++ tl)%list
  end.

(** The records of a decoded body; [None] is the [else: return []] branch. *)
Definition response_records (raw : pyval) : result (option (list pyval)) :=
  match raw with
  | PList l => Ok (Some l)
  | PDict kv =>
      keyed <- mapR (fun p => int_key (fst p)) kv ;;
      recs <- comprehension kv (map snd (sort_by_key keyed)) ;;
      Ok (Some recs)
  | _ => Ok None
  end.

(** [rec.get(...)] needs a dict: any other record raises [AttributeError]. *)
Definition as_dict (rec : pyval) : result dict :=
  match rec with PDict d => Ok d | _ => Raise AttributeError end.

(** [clean_numeric(rec[col]) if col in rec else ""] *)
Definition iroq_value (d : dict) (col : string) : pyval :=
  match dict_get d col with
  | Some v => clean_numeric_iroq v
  | None => PStr ""
  end.

Definition normalize_record_iroq (gas_date_str : string) (d : dict) : dict :=
  fold_left (fun out col => dict_set out col (iroq_value d col))
    (tl CSV_COLUMNS) [("gas_date", PStr gas_date_str)].

(** Loop body of [fetch_iroquois_oac.fetch_day] for one record; [None] is
    [continue]. *)
Definition record_step_iroq (gas_date_str : string) (rec : pyval) : result (option dict) :=
  d <- as_dict rec ;;
  if in_None_or_1 (dict_get_default d "statusCode" PNone)
  then Ok (Some (normalize_record_iroq gas_date_str d))
  else Ok None.

(** [val = rec.get(csv_col, "")]; the value stored under [db_col]. *)
Definition upd_value (d : dict) (p : string * string) : pyval :=
  let '(csv_col, db_col) := p in
  let val := dict_get_default d csv_col (PStr "") in
  if str_mem db_col NUMERIC_COLS then clean_numeric val
  else if py_truthy val then val else PNone.

Definition normalize_record_upd (gas_date_str : string) (d : dict) : dict :=
  fold_left (fun row p => dict_set row (snd p) (upd_value d p))
    COL_MAP [("gas_date", PStr gas_date_str)].

(** Loop body of [update_db.fetch_day] for one record. *)
Definition record_step_upd (gas_date_str : string) (rec : pyval) : result (option dict) :=
  d <- as_dict rec ;;
  if in_None_or_1 (dict_get_default d "statusCode" PNone)
  then Ok (Some (normalize_record_upd gas_date_str d))
  else Ok None.

Fixpoint collect (step : pyval -> result (option dict)) (recs : list pyval)
  : result (list dict) :=
  match recs with
  | [] => Ok []
  | r :: rest =>
      o <- step r ;;
      tl <- collect step rest ;;
      Ok (match o with Some x => x :: tl | None => tl end)
  end.

(** What one HTTP round trip of [fetch_day] yields: [session.get] raising,
    [raise_for_status] raising, [resp.json()] raising, or a decoded body. *)
Inductive outcome :=
| Transport
| HttpStatus
| BadJson
| Body (v : pyval).

(** The [try] body of one attempt. *)
Definition attempt_body (step : pyval -> result (option dict)) (o : outcome)
  : result (list dict) :=
  match o with
  | Transport => Raise RequestException
  | HttpStatus => Raise HTTPError
  | BadJson => Raise JSONDecodeError
  | Body raw =>
      ro <- response_records raw ;;
      match ro with
      | None => Ok []
      | Some recs => collect step recs
      end
  end.

(** Observable effects of [fetch_day]. *)
Inductive event :=
| EGet (attempt : Z)               (* session.get(ROUTER_URL, ...) *)
| ERetryMsg (attempt wait : Z)     (* [retry attempt/MAX_RETRIES] ... waiting *)
| ESleep (secs : Z)                (* time.sleep(wait) *)
| ESkipRetries                     (* [SKIP] after MAX_RETRIES failed attempts *)
| ESkipParse.                      (* [SKIP] parse error *)

Definition MAX_RETRIES : Z := 4.

(** [for attempt in range(attempt, MAX_RETRIES + 1): try ... except ...];
    [net attempt] is what the endpoint does on that attempt. *)
Fixpoint retry_loop (step : pyval -> result (option dict)) (net : Z -> outcome)
    (attempt : Z) (fuel : nat) : result (list dict) * list event :=
  match fuel with
  | O => (Ok [], [])
  | S f =>
      match attempt_body step (net attempt) with
      | Ok rows => (Ok rows, [EGet attempt])
      | Raise e =>
          if is_RequestException e then
            let wait := 2 ^ attempt in
            if attempt =? MAX_RETRIES then
              (Ok [], [EGet attempt; ERetryMsg attempt wait; ESkipRetries])
            else
              let '(r, tr) := retry_loop step net (attempt + 1) f in
              (r, [EGet attempt; ERetryMsg attempt wait; ESleep wait] ++ tr)%list
          else if is_ValueError e || is_KeyError e then
            (Ok [], [EGet attempt; ESkipParse])
          else (Raise e, [EGet attempt])
      end
  end.

(** [fetch_iroquois_oac.fetch_day(session, query_date)] *)
Definition fetch_day_iroq (net : Z -> outcome) (query_date : date)
  : result (list dict) * list event :=
  retry_loop (record_step_iroq (strftime_Y_m_d query_date)) net 1
    (Z.to_nat MAX_RETRIES).

(** [update_db.fetch_day(session, query_date)] *)
Definition fetch_day_upd (net : Z -> outcome) (query_date : date)
  : result (list dict) * list event :=
  retry_loop (record_step_upd (strftime_Y_m_d query_date)) net 1
    (Z.to_nat MAX_RETRIES).

Example ex_rec : pyval := PDict [("Loc", PStr "1,234"); ("Loc Name", PStr "A")].
Example ex_fetch1 :
  fst (fetch_day_upd (fun _ => Body (PList [ex_rec])) (mkdate 2025 6 8))
  = Ok [[("gas_date", PStr "2025-06-08"); ("posting_date", PNone);
         ("posting_time", PNone); ("loc", PInt 1234); ("loc_name", PStr "A");
         ("loc_qti_desc", PNone); ("loc_purp_desc", PNone);
         ("flow_ind_desc", PNone); ("meas_basis_desc", PNone);
         ("it_indicator", PNone); ("all_qty_avail", PNone);
         ("design_capacity", PNone); ("operating_capacity", PNone);
         ("total_scheduled_quantity", PNone); ("oac", PNone)]].
Proof. reflexivity. Qed.
Example ex_clean : clean_numeric (PStr "3.5") = PFloat (Fin false 35 (-1)).
Proof. reflexivity. Qed.

(* ------------------------------------------------------------------ *)
(** ** Backfill ([fetch_iroquois_oac.main]) and its CSV file *)

Definition line := list string.

(** The output file on disk: [None] when it does not exist.  The CSV
    quoting round-trips, so a written row is read back as the same cells. *)
Definition csvfile := option (list line).

Definition Z_to_string (z : Z) : string := NilEmpty.string_of_int (Z.to_int z).

(** [str(v)] as written by [csv.writer] ([None] is written as [""]).  The
    API's values are strings and integers; the text of floats and
    containers is not needed and is written as a fixed placeholder. *)
Definition csv_cell (v : pyval) : string :=
  match v with
  | PNone => ""
  | PBool b => if b then "True" else "False"
  | PInt z => Z_to_string z
  | PStr s => s
  | PFloat _ => "<float>"
  | PList _ => "<list>"
  | PDict _ => "<dict>"
  end.

(** [DictWriter(fieldnames=CSV_COLUMNS, extrasaction="ignore").writerow] *)
Definition write_line (r : dict) : line :=
  map (fun c => match dict_get r c with Some v => csv_cell v | None => "" end)
    CSV_COLUMNS.

(** A [DictReader] row: [dict(zip(fieldnames, row))], then the fields past
    the end of a short row set to [restval = None]. *)
Definition sdict := list (string * option string).

Fixpoint sdict_set (d : sdict) (k : string) (v : option string) : sdict :=
  match d with
  | [] => [(k, v)]
  | (k', v') :: r =>
      if String.eqb k k' then (k', v) :: r else (k', v') :: sdict_set r k v
  end.

Fixpoint sdict_get (d : sdict) (k : string) : option (option string) :=
  match d with
  | [] => None
  | (k', v) :: r => if String.eqb k k' then Some v else sdict_get r k
  end.

Definition reader_row (fieldnames : line) (row : line) : sdict :=
  let d := fold_left (fun d kv => sdict_set d (fst kv) (Some (snd kv)))
             (combine fieldnames row) [] in
  fold_left (fun d k => sdict_set d k None) (skipn (length row) fieldnames) d.

(** [dates.add(x)] *)
Definition set_add (x : string) (s : list string) : list string :=
  if str_mem x s then s else s ++ [x].

(** [get_existing_dates(output_file)] *)
Definition get_existing_dates (file : csvfile) : list string :=
  match file with
  | None => []
  | Some [] => []                            (* reader.fieldnames is None *)
  | Some (fieldnames :: rows) =>
      if str_mem "gas_date" fieldnames then
        fold_left
          (fun dates row =>
             match row with
             | [] => dates                       (* blank lines are skipped *)
             | _ =>
                 match sdict_get (reader_row fieldnames row) "gas_date" with
                 | Some (Some g) => if String.eqb g "" then dates else set_add g dates
                 | _ => dates
                 end
             end)
          rows []
      else []
  end.

(** [cur = start; while cur <= end_date: ...; cur += timedelta(days=1)];
    [fuel] bounds the loop by the number of days of the range. *)
Fixpoint date_range_fuel (fuel : nat) (cur end_date : date) : list date :=
  match fuel with
  | O => []
  | S f => if date_le cur end_date then cur :: date_range_fuel f (next_day cur) end_date
           else []
  end.

Definition date_range (start end_date : date) : list date :=
  date_range_fuel (Z.to_nat (ordinal end_date - ordinal start + 1)) start end_date.

Definition START_DATE : date := mkdate 2010 1 1.

(** The per-date loop inside [with open(OUTPUT_FILE, "a") as fh].
    [buf] is text written but not yet flushed (the header, until the first
    [fh.flush()]).  [kill_at = Some i]: the process is killed (no Python
    clean-up) before it fetches the [i]-th date of [todo], so unflushed text
    is lost.  An exception escaping [fetch_day] leaves the [with] block,
    which closes (and so flushes) the file.  Returns the text that reaches
    the disk and the dates fetched. *)
Fixpoint write_loop (net : date -> Z -> outcome) (kill_at : option nat)
    (todo : list date) (idx : nat) (buf : list line) : list line * list date :=
  match todo with
  | [] => (buf, [])
  | d :: rest =>
      if match kill_at with Some k => Nat.eqb k idx | None => false end
      then ([], [])
      else
        match fst (fetch_day_iroq (net d) d) with
        | Raise _ => (buf, [d])
        | Ok [] =>
            let '(w, f) := write_loop net kill_at rest (S idx) buf in (w, d :: f)
        | Ok recs =>
            let '(w, f) := write_loop net kill_at rest (S idx) [] in
            ((buf ++ map write_line recs ++ w)%list, d :: f)
        end
  end.

(** One run of the backfill over [[start, end_date]] from output [file];
    returns the output afterwards and the dates [fetch_day] was called on. *)
Definition backfill (start end_date : date) (net : date -> Z -> outcome)
    (kill_at : option nat) (file : csvfile) : csvfile * list date :=
  let existing := get_existing_dates file in
  let file_exists :=
    negb (match existing with [] => true | _ => false end)
    || match file with Some _ => true | None => false end in
  let todo := filter (fun d => negb (str_mem (strftime_Y_m_d d) existing))
                (date_range start end_date) in
  match todo with
  | [] => (file, [])                         (* "Nothing to fetch" *)
  | _ =>
      let disk := match file with Some l => l | None => [] end in
      let header := if file_exists then [] else [CSV_COLUMNS] in
      let '(w, fetched) := write_loop net kill_at todo 0 header in
      (Some (disk ++ w)%list, fetched)
  end.

(** [fetch_iroquois_oac.main()] run on day [today]. *)
Definition main_backfill (today : date) := backfill START_DATE today.

(** The natural key [(gas_date, Loc, Loc Purp Desc, Flow Ind Desc)] of a
    CSV row (columns 0, 3, 6 and 7 of [CSV_COLUMNS]). *)
Definition row_key (l : line) : string * string * string * string :=
  (nth 0 l "", nth 3 l "", nth 6 l "", nth 7 l "").

Definition line_eqb (a b : line) : bool :=
  (length a =? length b)%nat && forallb (fun p => String.eqb (fst p) (snd p)) (combine a b).

(** The data rows of the output (every line but a header line). *)
Definition output_rows (file : csvfile) : list line :=
  match file with
  | None => []
  | Some lines => filter (fun l => negb (line_eqb l CSV_COLUMNS)) lines
  end.

(* ------------------------------------------------------------------ *)
(** ** Incremental updater ([update_db.main]) *)

Definition LOOKBACK_DAYS : nat := 3.

(** [dates = [today - timedelta(days=i) for i in range(LOOKBACK_DAYS)];
    dates.reverse()] *)
Definition lookback_dates (today : date) : list date :=
  rev (map (sub_days today) (seq 0 LOOKBACK_DAYS)).

Section Updater.
(** The Supabase table, and the client's [upsert(...).execute()]: it may
    raise, otherwise it yields the new table contents. *)
Variable store : Type.
Variable client_upsert : store -> list dict -> result store.

(** [upsert(client, rows)] *)
Definition upsert (s : store) (rows : list dict) : result store :=
  match rows with [] => Ok s | _ => client_upsert s rows end.

(** [for query_date in dates: ...]; returns the outcome (the final store
    when the loop completes) and the dates [fetch_day] was called on. *)
Fixpoint updater_loop (net : date -> Z -> outcome) (dates : list date) (s : store)
  : result store * list date :=
  match dates with
  | [] => (Ok s, [])
  | d :: rest =>
      match fst (fetch_day_upd (net d) d) with
      | Raise e => (Raise e, [d])
      | Ok records =>
          match records with
          | [] => let '(r, l) := updater_loop net rest s in (r, d :: l)
          | _ =>
              match upsert s records with
              | Raise e => (Raise e, [d])
              | Ok s' => let '(r, l) := updater_loop net rest s' in (r, d :: l)
              end
          end
      end
  end.

(** [update_db.main()] run on day [today]; [has_credentials] says whether
    [SUPABASE_URL] and [SUPABASE_KEY] are set ([get_client] exits
    otherwise). *)
Definition main_updater (today : date) (has_credentials : bool)
    (net : date -> Z -> outcome) (s0 : store) : result store * list date :=
  let dates := lookback_dates today in
  if has_credentials then updater_loop net dates s0 else (Raise SystemExit, []).
End Updater.

(* ------------------------------------------------------------------ *)
(** ** Bulk loader ([load_csv_to_supabase.upsert_batches]) *)

Definition BATCH_SIZE : nat := 500.

(** [range(i, stop, step)]; [fuel] bounds the number of elements. *)
Fixpoint range_step (fuel : nat) (i stop step : nat) : list nat :=
  match fuel with
  | O => []
  | S f => if Nat.ltb i stop then i :: range_step f (i + step) stop step else []
  end.

(** [rows[i : i + BATCH_SIZE]] *)
Definition batch_at (rows : list dict) (i : nat) : list dict :=
  firstn BATCH_SIZE (skipn i rows).

(** The loop of [upsert_batches].  [client n batch] is what the [n]-th
    upsert call does: [None] when [.execute()] returns, [Some e] when it
    raises [e].  [except Exception] catches exactly the [is_Exception]
    errors.  Returns the final [(written, errors)] report (or the escaping
    exception) and the batches submitted. *)
Fixpoint upsert_loop (client : nat -> list dict -> option exc) (rows : list dict)
    (idxs : list nat) (written errors : nat)
  : result (nat * nat) * list (list dict) :=
  match idxs with
  | [] => (Ok (written, errors), [])
  | i :: rest =>
      let batch := batch_at rows i in
      match client (i / BATCH_SIZE)%nat batch with
      | None =>
          let '(r, c) := upsert_loop client rows rest (written + length batch) errors in
          (r, batch :: c)
      | Some e =>
          if is_Exception e then
            let '(r, c) := upsert_loop client rows rest written (errors + length batch) in
            (r, batch :: c)
          else (Raise e, [batch])
      end
  end.

(** [upsert_batches(client, rows)] *)
Definition upsert_batches (client : nat -> list dict -> option exc) (rows : list dict)
  : result (nat * nat) * list (list dict) :=
  let total := length rows in
  upsert_loop client rows (range_step total 0 total BATCH_SIZE) 0 0.

(** Position of a column in a header ([list.index]). *)
Fixpoint column_index (cols : list string) (c : string) : nat :=
  match cols with
  | [] => O
  | c' :: r => if String.eqb c' c then O else S (column_index r c)
  end.

(** [load_csv] on one cell of the backfill's CSV (header [CSV_COLUMNS],
    read with [dtype=str, keep_default_na=False]): the value of the
    column renamed [db_col] after numeric columns are coerced and
    [df.where(df != "", other=None)], taken cell by cell.  pandas works
    column by column: a numeric column that mixes [int]s and [None]
    becomes [float64] ([5.0], [NaN]), and pandas 3 reads empty text cells
    as [NaN].  Neither is modelled here, so this is exact only for a
    non-empty cell of a text column, which [dtype=str] keeps as read and
    [df.where] leaves alone. *)
Definition load_value (cells : line) (p : string * string) : pyval :=
  let '(csv_col, db_col) := p in
  let raw := PStr (nth (column_index CSV_COLUMNS csv_col) cells "") in
  let v := if str_mem db_col NUMERIC_COLS then coerce_numeric raw else raw in
  match v with PStr s => if String.eqb s "" then PNone else v | _ => v end.

(** The row [load_csv] makes of one CSV line: columns renamed through
    [COL_MAP] (plus [gas_date]) and kept in that order. *)
Definition load_csv_row (cells : line) : dict :=
  map (fun p => (snd p, load_value cells p)) (("gas_date", "gas_date") :: COL_MAP).

(** Reads back an ISO-8601 calendar date [YYYY-MM-DD]. *)
Fixpoint digits_value (s : string) (acc : Z) : option Z :=
  match s with
  | EmptyString => Some acc
  | String c r => if is_digit c then digits_value r (acc * 10 + digit_val c) else None
  end.

Definition iso_decode (s : string) : option (Z * Z * Z) :=
  match s with
  | String y1 (String y2 (String y3 (String y4 (String h1 (String m1 (String m2
      (String h2 (String d1 (String d2 EmptyString))))))))) =>
      if Ascii.eqb h1 "-"%char && Ascii.eqb h2 "-"%char then
        match digits_value (String y1 (String y2 (String y3 (String y4 EmptyString)))) 0,
              digits_value (String m1 (String m2 EmptyString)) 0,
              digits_value (String d1 (String d2 EmptyString)) 0 with
        | Some y, Some m, Some d => Some (y, m, d)
        | _, _, _ => None
        end
      else None
  | _ => None
  end.

(* ================================================================== *)
(** * Properties *)

(* ------------------------------------------------------------------ *)
(** ** Flattening of a numeric-keyed response object *)

Lemma insert_by_key_length x l : length (insert_by_key x l) = S (length l).
Proof. induction l as [|y r IH]; simpl; [reflexivity|]. destruct (fst y <=? fst x); simpl; auto. Qed.

Lemma sort_by_key_length l : length (sort_by_key l) = length l.
Proof.
  unfold sort_by_key. rewrite <- (length_rev l). generalize (rev l) as l'.
  induction l' as [|x r IH]; simpl; [reflexivity|]. rewrite insert_by_key_length. congruence.
Qed.

Lemma mapR_int_key_ok (kv : dict) :
  (forall p, In p kv -> int_parse (fst p) <> None) ->
  exists keyed, mapR (fun p => int_key (fst p)) kv = Ok keyed /\ length keyed = length kv.
Proof.
  induction kv as [|p r IH]; intros H; simpl.
  - exists []. auto.
  - unfold int_key at 1. destruct (int_parse (fst p)) as [n|] eqn:E.
    + destruct IH as [keyed [Hk Hl]]; [intros q Hq; apply H; right; exact Hq|].
      simpl. rewrite Hk. simpl. exists ((n, fst p) :: keyed). simpl. auto.
    + exfalso. apply (H p); [left; reflexivity | exact E].
Qed.

Lemma comprehension_nonempty_raises raw keys :
  keys <> [] -> comprehension raw keys = Raise NameError.
Proof. destruct keys; [congruence | reflexivity]. Qed.

(** The [except] clauses of [fetch_day] do not catch [NameError]. *)
Lemma retry_loop_NameError step net attempt f :
  attempt_body step (net attempt) = Raise NameError ->
  retry_loop step net attempt (S f) = (Raise NameError, [EGet attempt]).
Proof. intros H. simpl. rewrite H. reflexivity. Qed.

Lemma attempt_body_numeric_object step kv :
  kv <> [] -> (forall p, In p kv -> int_parse (fst p) <> None) ->
  attempt_body step (Body (PDict kv)) = Raise NameError.
Proof.
  intros Hne Hk. destruct (mapR_int_key_ok kv Hk) as [keyed [Hm Hl]].
  simpl. rewrite Hm. simpl.
  rewrite comprehension_nonempty_raises; [reflexivity|].
  intros E. apply (f_equal (@length string)) in E.
  rewrite length_map, sort_by_key_length, Hl in E. destruct kv; [congruence|discriminate].
Qed.

Definition rec0 : pyval :=
  PDict [("Loc", PStr "70001"); ("Loc Purp Desc", PStr "Receipt");
         ("Flow Ind Desc", PStr "R"); ("OAC", PStr "12,345"); ("statusCode", PInt 1)].
Definition rec1 : pyval :=
  PDict [("Loc", PStr "70002"); ("Loc Purp Desc", PStr "Delivery");
         ("Flow Ind Desc", PStr "D"); ("OAC", PStr "500"); ("statusCode", PInt 1)].

(** C2 (code_bug).  A response object whose keys are all stringified
    integers makes both [fetch_day]s raise [NameError] (the comprehension's
    filter names the unbound [x]) instead of returning the records in key
    order; in particular [{"1": rec1, "0": rec0}] does.  A non-numeric key
    makes [int(x)] raise [ValueError] during the sort, so the whole date is
    skipped instead of the key being ignored. *)
Theorem fetch_day_numeric_object_raises :
  forall (kv : dict) (query_date : date),
    kv <> [] -> (forall p, In p kv -> int_parse (fst p) <> None) ->
    fetch_day_upd (fun _ => Body (PDict kv)) query_date = (Raise NameError, [EGet 1])
    /\ fetch_day_iroq (fun _ => Body (PDict kv)) query_date = (Raise NameError, [EGet 1])
    /\ fst (fetch_day_upd (fun _ => Body (PDict [("1", rec1); ("0", rec0)])) query_date)
       = Raise NameError
    /\ fetch_day_upd (fun _ => Body (PDict [("0", rec0); ("count", PInt 1)])) query_date
       = (Ok [], [EGet 1; ESkipParse]).
Proof.
  intros kv qd Hne Hk. split; [|split; [|split]].
  - apply retry_loop_NameError, attempt_body_numeric_object; assumption.
  - apply retry_loop_NameError, attempt_body_numeric_object; assumption.
  - reflexivity.
  - reflexivity.
Qed.

Lemma fetch_day_numeric_object_raises_witness :
  [("1", rec1); ("0", rec0)] <> []
  /\ fst (fetch_day_upd (fun _ => Body (PDict [("1", rec1); ("0", rec0)])) (mkdate 2025 6 10))
     = Raise NameError.
Proof.
  assert (Hk : forall p, In p [("1", rec1); ("0", rec0)] -> int_parse (fst p) <> None).
  { intros p [E|[E|[]]]; subst; simpl; discriminate. }
  destruct (fetch_day_numeric_object_raises [("1", rec1); ("0", rec0)] (mkdate 2025 6 10)
              ltac:(discriminate) Hk) as [H _].
  split; [discriminate|]. rewrite H. reflexivity.
Defined.

(* ------------------------------------------------------------------ *)
(** ** Retry policy of [fetch_day] *)

(** Trace of four failed attempts: [2^attempt] seconds slept after
    attempts 1 to 3, then the skip message. *)
Definition exhausted_trace : list event :=
  [EGet 1; ERetryMsg 1 2; ESleep 2;
   EGet 2; ERetryMsg 2 4; ESleep 4;
   EGet 3; ERetryMsg 3 8; ESleep 8;
   EGet 4; ERetryMsg 4 16; ESkipRetries].

Lemma retry_loop_all_request_failures step net :
  (forall a, exists e, attempt_body step (net a) = Raise e /\ is_RequestException e = true) ->
  retry_loop step net 1 (Z.to_nat MAX_RETRIES) = (Ok [], exhausted_trace).
Proof.
  intros H.
  destruct (H 1) as [e1 [E1 R1]]; destruct (H 2) as [e2 [E2 R2]];
  destruct (H 3) as [e3 [E3 R3]]; destruct (H 4) as [e4 [E4 R4]].
  simpl. rewrite E1, R1. simpl. rewrite E2, R2. simpl. rewrite E3, R3. simpl.
  rewrite E4, R4. reflexivity.
Qed.

(** C7 (code_bug).  When every attempt fails in transport, [fetch_day]
    makes [MAX_RETRIES] = 4 attempts, sleeps [2^attempt] seconds between
    them and returns [[]] after logging the skip.  But a body that is not
    JSON is retried the same way ([requests]' [JSONDecodeError] is a
    [RequestException], caught by the first handler), and a JSON array of
    non-objects makes [rec.get] raise [AttributeError], which escapes
    [fetch_day]. *)
Theorem fetch_day_retry_policy :
  forall (net : Z -> outcome) (query_date : date),
    (forall a, net a = Transport \/ net a = HttpStatus) ->
    fetch_day_upd net query_date = (Ok [], exhausted_trace)
    /\ fetch_day_iroq net query_date = (Ok [], exhausted_trace)
    /\ fetch_day_upd (fun _ => BadJson) query_date = (Ok [], exhausted_trace)
    /\ fetch_day_iroq (fun _ => BadJson) query_date = (Ok [], exhausted_trace)
    /\ fetch_day_upd (fun _ => Body (PList [PInt 1])) query_date
       = (Raise AttributeError, [EGet 1])
    /\ fetch_day_iroq (fun _ => Body (PList [PInt 1])) query_date
       = (Raise AttributeError, [EGet 1]).
Proof.
  intros net qd Hnet.
  assert (Hreq : forall step a, exists e,
             attempt_body step (net a) = Raise e /\ is_RequestException e = true).
  { intros step a. destruct (Hnet a) as [E|E]; rewrite E; eexists; split; reflexivity. }
  assert (Hbad : forall step a, exists e,
             attempt_body step ((fun _ : Z => BadJson) a) = Raise e
             /\ is_RequestException e = true).
  { intros step a. eexists; split; reflexivity. }
  split; [|split; [|split; [|split; [|split]]]].
  - apply retry_loop_all_request_failures, Hreq.
  - apply retry_loop_all_request_failures, Hreq.
  - apply retry_loop_all_request_failures, Hbad.
  - apply retry_loop_all_request_failures, Hbad.
  - reflexivity.
  - reflexivity.
Qed.

Lemma fetch_day_retry_policy_witness :
  (forall a : Z, (fun _ : Z => Transport) a = Transport \/ (fun _ : Z => Transport) a = HttpStatus)
  /\ fetch_day_upd (fun _ => Transport) (mkdate 2025 6 10) = (Ok [], exhausted_trace).
Proof.
  assert (H : forall a : Z, (fun _ : Z => Transport) a = Transport
                            \/ (fun _ : Z => Transport) a = HttpStatus) by (intros; left; reflexivity).
  split; [exact H|].
  destruct (fetch_day_retry_policy (fun _ => Transport) (mkdate 2025 6 10) H) as [E _].
  exact E.
Defined.

(* ------------------------------------------------------------------ *)
(** ** Batched upsert of the bulk loader *)

Lemma batch_at_length rows i :
  length (batch_at rows i) = Nat.min BATCH_SIZE (length rows - i).
Proof. unfold batch_at. rewrite length_firstn, length_skipn. reflexivity. Qed.

(** The batches of [range(i, total, BATCH_SIZE)] cover rows [i..total). *)
Lemma range_batches_cover rows fuel i :
  (length rows - i <= fuel * BATCH_SIZE)%nat ->
  fold_right (fun j acc => length (batch_at rows j) + acc)%nat 0%nat
    (range_step fuel i (length rows) BATCH_SIZE) = (length rows - i)%nat.
Proof.
  revert i. induction fuel as [|f IH]; intros i Hf; simpl.
  - lia.
  - destruct (Nat.ltb i (length rows)) eqn:E; simpl.
    + apply Nat.ltb_lt in E. rewrite IH by (unfold BATCH_SIZE in *; lia).
      rewrite batch_at_length. unfold BATCH_SIZE in *. lia.
    + apply Nat.ltb_ge in E. lia.
Qed.

Definition client_raises_Exceptions (client : nat -> list dict -> option exc) : Prop :=
  forall n b e, client n b = Some e -> is_Exception e = true.

Lemma upsert_loop_report client rows idxs w er :
  client_raises_Exceptions client ->
  exists w' er',
    fst (upsert_loop client rows idxs w er) = Ok (w', er')
    /\ (w' + er' = w + er
                   + fold_right (fun j acc => length (batch_at rows j) + acc) 0 idxs)%nat
    /\ snd (upsert_loop client rows idxs w er) = map (batch_at rows) idxs.
Proof.
  intros Hc. revert w er.
  induction idxs as [|i rest IH]; intros w er; cbn [upsert_loop fold_right map].
  - exists w, er. repeat split. lia.
  - destruct (client (i / BATCH_SIZE)%nat (batch_at rows i)) as [e|] eqn:Ec.
    + rewrite (Hc _ _ _ Ec).
      destruct (IH w (er + length (batch_at rows i))%nat) as [w' [er' [H1 [H2 H3]]]].
      destruct (upsert_loop client rows rest w (er + length (batch_at rows i))) as [r c].
      simpl in *. exists w', er'. subst. repeat split. lia.
    + destruct (IH (w + length (batch_at rows i))%nat er) as [w' [er' [H1 [H2 H3]]]].
      destruct (upsert_loop client rows rest (w + length (batch_at rows i)) er) as [r c].
      simpl in *. exists w', er'. subst. repeat split. lia.
Qed.

(** C8.  With [BATCH_SIZE] = 500, [upsert_batches] on 1,200 rows submits
    exactly three batches, of 500, 500 and 200 rows, in order, whichever
    batches fail. *)
Theorem upsert_batches_1200 :
  forall (client : nat -> list dict -> option exc) (rows : list dict),
    length rows = 1200%nat -> client_raises_Exceptions client ->
    map (@length dict) (snd (upsert_batches client rows)) = [500; 500; 200]%nat
    /\ snd (upsert_batches client rows) = [batch_at rows 0; batch_at rows 500; batch_at rows 1000].
Proof.
  intros client rows Hl Hc. unfold upsert_batches.
  destruct (upsert_loop_report client rows (range_step (length rows) 0 (length rows) BATCH_SIZE) 0 0 Hc)
    as [w [er [_ [_ H3]]]].
  rewrite H3, Hl. simpl.
  rewrite !batch_at_length, Hl. split; reflexivity.
Qed.

Lemma upsert_batches_1200_witness :
  length (repeat ([] : dict) 1200) = 1200%nat
  /\ map (@length dict) (snd (upsert_batches (fun n _ => if Nat.eqb n 1 then Some StoreError else None)
                                 (repeat [] 1200))) = [500; 500; 200]%nat.
Proof.
  assert (Hc : client_raises_Exceptions (fun n _ => if Nat.eqb n 1 then Some StoreError else None)).
  { intros n b e E. destruct (Nat.eqb n 1); inversion E; reflexivity. }
  assert (Hl : length (repeat ([] : dict) 1200) = 1200%nat) by apply repeat_length.
  split; [exact Hl|].
  destruct (upsert_batches_1200 _ _ Hl Hc) as [H _]. exact H.
Defined.

(** C10.  [upsert_batches] raises nothing when batches fail with ordinary
    exceptions: it always completes with a report [(written, errors)]
    whose two counts add up to the number of input rows; on no rows it
    makes no upsert call and reports [(0, 0)]. *)
Theorem upsert_batches_report :
  forall (client : nat -> list dict -> option exc) (rows : list dict),
    client_raises_Exceptions client ->
    (exists written errors,
        fst (upsert_batches client rows) = Ok (written, errors)
        /\ (written + errors = length rows)%nat)
    /\ upsert_batches client [] = (Ok (0, 0)%nat, []).
Proof.
  intros client rows Hc. split; [|reflexivity].
  unfold upsert_batches.
  destruct (upsert_loop_report client rows (range_step (length rows) 0 (length rows) BATCH_SIZE) 0 0 Hc)
    as [w [er [H1 [H2 _]]]].
  exists w, er. split; [exact H1|].
  rewrite range_batches_cover in H2 by (unfold BATCH_SIZE; lia). lia.
Qed.

Lemma upsert_batches_report_witness :
  client_raises_Exceptions (fun _ _ => Some StoreError)
  /\ fst (upsert_batches (fun _ _ => Some StoreError) (repeat [] 3)) = Ok (0, 3)%nat.
Proof.
  assert (Hc : client_raises_Exceptions (fun _ _ => Some StoreError)).
  { intros n b e E. inversion E. reflexivity. }
  split; [exact Hc|].
  destruct (upsert_batches_report _ (repeat [] 3) Hc) as [[w [er [H1 H2]]] _].
  rewrite H1. simpl in H2. vm_compute in H1. inversion H1. reflexivity.
Defined.

(* ------------------------------------------------------------------ *)
(** ** Numeric normalization *)

Fixpoint comma_free (s : string) : Prop :=
  match s with
  | EmptyString => True
  | String c r => c <> ","%char /\ comma_free r
  end.

Lemma remove_commas_comma_free s : comma_free (remove_commas s).
Proof.
  induction s as [|c r IH]; simpl; [exact I|].
  destruct (Ascii.eqb c ",") eqn:E; [exact IH|].
  simpl. split; [apply Ascii.eqb_neq; exact E | exact IH].
Qed.

Lemma remove_commas_id s : comma_free s -> remove_commas s = s.
Proof.
  induction s as [|c r IH]; simpl; [reflexivity|]. intros [Hc Hr].
  apply Ascii.eqb_neq in Hc. rewrite Hc, IH by exact Hr. reflexivity.
Qed.

Lemma lstrip_comma_free s : comma_free s -> comma_free (lstrip s).
Proof.
  induction s as [|c r IH]; simpl; [auto|]. intros [Hc Hr].
  destruct (is_space c); [apply IH; exact Hr | simpl; auto].
Qed.

Lemma rstrip_comma_free s : comma_free s -> comma_free (rstrip s).
Proof.
  induction s as [|c r IH]; simpl; [auto|]. intros [Hc Hr].
  destruct (String.eqb (rstrip r) "" && is_space c); simpl; auto.
Qed.

Lemma rstrip_idem s : rstrip (rstrip s) = rstrip s.
Proof.
  induction s as [|c r IH]; simpl; [reflexivity|].
  destruct (String.eqb (rstrip r) "" && is_space c) eqn:E; simpl; [reflexivity|].
  rewrite IH, E. reflexivity.
Qed.

Lemma lstrip_head s :
  lstrip s = EmptyString \/ exists c r, lstrip s = String c r /\ is_space c = false.
Proof.
  induction s as [|c r IH]; simpl; [left; reflexivity|].
  destruct (is_space c) eqn:E; [exact IH|]. right. exists c, r. auto.
Qed.

Lemma py_strip_idem s : py_strip (py_strip s) = py_strip s.
Proof.
  unfold py_strip. destruct (lstrip_head s) as [E|[c [r [E Hc]]]]; rewrite E.
  - reflexivity.
  - simpl. rewrite Hc, andb_false_r. simpl. rewrite Hc.
    cbn [rstrip]. rewrite rstrip_idem, Hc, andb_false_r. reflexivity.
Qed.

(** The text [clean_numeric] parses is a fixed point of the cleaning. *)
Lemma strip_remove_commas_fixed s :
  py_strip (remove_commas (py_strip (remove_commas s))) = py_strip (remove_commas s).
Proof.
  rewrite (remove_commas_id (py_strip (remove_commas s))).
  - apply py_strip_idem.
  - unfold py_strip. apply rstrip_comma_free, lstrip_comma_free, remove_commas_comma_free.
Qed.

(** The loader's [coerce_numeric] and the updater's [clean_numeric] agree
    on strings. *)
Lemma coerce_numeric_clean_numeric s :
  coerce_numeric (PStr s) = clean_numeric (PStr s).
Proof.
  unfold coerce_numeric, clean_numeric.
  destruct (String.eqb s "") eqn:E.
  - apply String.eqb_eq in E. subst. reflexivity.
  - reflexivity.
Qed.





(* ------------------------------------------------------------------ *)
(** ** Shape of the records [fetch_day] returns *)

Lemma digit_char_small k :
  0 <= k < 10 -> is_digit (digit_char k) = true /\ digit_val (digit_char k) = k.
Proof.
  intros H.
  assert (k = 0 \/ k = 1 \/ k = 2 \/ k = 3 \/ k = 4 \/ k = 5 \/ k = 6 \/ k = 7
          \/ k = 8 \/ k = 9) as Hk by lia.
  repeat destruct Hk as [Hk|Hk]; subst; split; reflexivity.
Qed.

Lemma digit_char_mod n : digit_char n = digit_char (n mod 10).
Proof. unfold digit_char. rewrite Z.mod_mod by lia. reflexivity. Qed.

Lemma is_digit_char n : is_digit (digit_char n) = true.
Proof. rewrite digit_char_mod. apply digit_char_small, Z.mod_pos_bound. lia. Qed.

Lemma digit_val_char n : digit_val (digit_char n) = n mod 10.
Proof. rewrite digit_char_mod. apply digit_char_small, Z.mod_pos_bound. lia. Qed.

Lemma digits_value_digit n r acc :
  digits_value (String (digit_char n) r) acc = digits_value r (acc * 10 + n mod 10).
Proof. cbn [digits_value]. rewrite is_digit_char, digit_val_char. reflexivity. Qed.

Lemma four_digits_value y :
  0 <= y < 10000 ->
  (((0 * 10 + (y / 1000) mod 10) * 10 + (y / 100) mod 10) * 10 + (y / 10) mod 10) * 10
  + y mod 10 = y.
Proof.
  intros H.
  assert (E1 : y / 100 = y / 10 / 10) by (rewrite Z.div_div by lia; reflexivity).
  assert (E2 : y / 1000 = y / 10 / 10 / 10) by (rewrite !Z.div_div by lia; reflexivity).
  rewrite E1, E2.
  pose proof (Z.div_mod y 10 ltac:(lia)). pose proof (Z.mod_pos_bound y 10 ltac:(lia)).
  pose proof (Z.div_mod (y / 10) 10 ltac:(lia)).
  pose proof (Z.mod_pos_bound (y / 10) 10 ltac:(lia)).
  pose proof (Z.div_mod (y / 10 / 10) 10 ltac:(lia)).
  pose proof (Z.mod_pos_bound (y / 10 / 10) 10 ltac:(lia)).
  pose proof (Z.div_mod (y / 10 / 10 / 10) 10 ltac:(lia)).
  pose proof (Z.mod_pos_bound (y / 10 / 10 / 10) 10 ltac:(lia)).
  assert (0 <= y / 10 / 10 / 10 / 10 < 1).
  { rewrite !Z.div_div by lia. cbn [Z.mul Pos.mul].
    split; [apply Z.div_pos|apply Z.div_lt_upper_bound]; lia. }
  lia.
Qed.

Lemma two_digits_value m :
  0 <= m < 100 -> (0 * 10 + (m / 10) mod 10) * 10 + m mod 10 = m.
Proof.
  intros H.
  pose proof (Z.div_mod m 10 ltac:(lia)). pose proof (Z.mod_pos_bound m 10 ltac:(lia)).
  pose proof (Z.div_mod (m / 10) 10 ltac:(lia)).
  pose proof (Z.mod_pos_bound (m / 10) 10 ltac:(lia)).
  assert (0 <= m / 10 / 10 < 1).
  { rewrite !Z.div_div by lia. cbn [Z.mul Pos.mul].
    split; [apply Z.div_pos|apply Z.div_lt_upper_bound]; lia. }
  lia.
Qed.

Lemma strftime_iso (d : date) :
  valid_date d = true -> iso_decode (strftime_Y_m_d d) = Some (year d, month d, day d).
Proof.
  destruct d as [y m dd]. unfold valid_date. cbn [year month day].
  intros H. repeat rewrite andb_true_iff in H. rewrite !Z.leb_le in H.
  assert (Hdim : days_in_month y m <= 31)
    by (unfold days_in_month; destruct (m =? 2), (is_leap y);
        repeat match goal with |- context [if ?b then _ else _] => destruct b end; lia).
  unfold strftime_Y_m_d, pad4, pad2. cbn [append year month day].
  unfold iso_decode. cbn [Ascii.eqb andb Bool.eqb].
  rewrite !digits_value_digit. cbn [digits_value].
  rewrite four_digits_value, !two_digits_value by lia. reflexivity.
Qed.

(** Assigning a column ([d[k] = v]) in a loop over a key list. *)
Section DictFold.
Context {A : Type} (K : A -> string) (F : A -> pyval).

Definition set_all (L : list A) (init : dict) : dict :=
  fold_left (fun row p => dict_set row (K p) (F p)) L init.

Fixpoint keys_set (ks : list string) (k : string) : list string :=
  match ks with
  | [] => [k]
  | k' :: r => if String.eqb k k' then k' :: r else k' :: keys_set r k
  end.

Lemma dict_set_keys d k v : map fst (dict_set d k v) = keys_set (map fst d) k.
Proof.
  induction d as [|[k' v'] r IH]; simpl; [reflexivity|].
  destruct (String.eqb k k'); simpl; [reflexivity|]. rewrite IH. reflexivity.
Qed.

Lemma set_all_keys L init :
  map fst (set_all L init) = fold_left (fun ks p => keys_set ks (K p)) L (map fst init).
Proof.
  unfold set_all. revert init. induction L as [|p r IH]; intros init; simpl; [reflexivity|].
  rewrite IH, dict_set_keys. reflexivity.
Qed.

Lemma dict_get_set_eq d k v : dict_get (dict_set d k v) k = Some v.
Proof.
  induction d as [|[k' v'] r IH]; simpl.
  - rewrite String.eqb_refl. reflexivity.
  - destruct (String.eqb k k') eqn:E; simpl.
    + rewrite E. reflexivity.
    + rewrite E. exact IH.
Qed.

Lemma dict_get_set_neq d k k' v : k <> k' -> dict_get (dict_set d k v) k' = dict_get d k'.
Proof.
  intros Hne. induction d as [|[k0 v0] r IH]; simpl.
  - apply String.eqb_neq in Hne. rewrite String.eqb_sym, Hne. reflexivity.
  - destruct (String.eqb k k0) eqn:E; simpl.
    + apply String.eqb_eq in E. subst.
      apply String.eqb_neq in Hne. rewrite String.eqb_sym, Hne. reflexivity.
    + rewrite IH. reflexivity.
Qed.

Lemma set_all_get_other L init key :
  ~ In key (map K L) -> dict_get (set_all L init) key = dict_get init key.
Proof.
  unfold set_all. revert init. induction L as [|p r IH]; intros init Hn; simpl; [reflexivity|].
  rewrite IH by (intros H; apply Hn; right; exact H).
  apply dict_get_set_neq. intros E. apply Hn. left. exact E.
Qed.

Lemma set_all_get L1 p L2 init :
  ~ In (K p) (map K L2) -> dict_get (set_all (L1 ++ p :: L2) init) (K p) = Some (F p).
Proof.
  intros Hn. unfold set_all. rewrite fold_left_app. cbn [fold_left].
  fold (set_all L2 (dict_set (fold_left (fun row p => dict_set row (K p) (F p)) L1 init) (K p) (F p))).
  rewrite set_all_get_other by exact Hn. apply dict_get_set_eq.
Qed.
End DictFold.

Lemma normalize_record_upd_keys gds d :
  map fst (normalize_record_upd gds d) = "gas_date" :: map snd COL_MAP
  /\ dict_get (normalize_record_upd gds d) "gas_date" = Some (PStr gds).
Proof.
  change (normalize_record_upd gds d) with (set_all snd (upd_value d) COL_MAP [("gas_date", PStr gds)]).
  split.
  - rewrite set_all_keys. reflexivity.
  - rewrite set_all_get_other; [reflexivity|]. simpl. intuition discriminate.
Qed.

Lemma normalize_record_iroq_keys gds d :
  map fst (normalize_record_iroq gds d) = CSV_COLUMNS
  /\ dict_get (normalize_record_iroq gds d) "gas_date" = Some (PStr gds).
Proof.
  change (normalize_record_iroq gds d)
    with (set_all (fun c => c) (iroq_value d) (tl CSV_COLUMNS) [("gas_date", PStr gds)]).
  split.
  - rewrite set_all_keys. reflexivity.
  - rewrite set_all_get_other; [reflexivity|]. simpl. intuition discriminate.
Qed.

Lemma collect_from_step step recs rows :
  collect step recs = Ok rows -> forall x, In x rows -> exists r, step r = Ok (Some x).
Proof.
  revert rows. induction recs as [|r rest IH]; intros rows H x Hx; simpl in H.
  - inversion H; subst. destruct Hx.
  - destruct (step r) as [o|e] eqn:Es; [|discriminate]. simpl in H.
    destruct (collect step rest) as [tl|e] eqn:Ec; [|discriminate]. simpl in H.
    inversion H; subst. destruct o as [y|].
    + destruct Hx as [<-|Hx]; [exists r; exact Es|]. exact (IH tl eq_refl x Hx).
    + exact (IH tl eq_refl x Hx).
Qed.

Lemma attempt_body_from_step step o rows :
  attempt_body step o = Ok rows -> forall x, In x rows -> exists r, step r = Ok (Some x).
Proof.
  destruct o as [| | |raw]; simpl; try discriminate.
  destruct (response_records raw) as [[recs|]|e]; simpl; try discriminate.
  - apply collect_from_step.
  - intros H. inversion H; subst. intros x [].
Qed.

Lemma retry_loop_from_step step net a f rows :
  fst (retry_loop step net a f) = Ok rows -> forall x, In x rows -> exists r, step r = Ok (Some x).
Proof.
  revert a rows. induction f as [|f IH]; intros a rows H; simpl in H.
  - inversion H; subst. intros x [].
  - destruct (attempt_body step (net a)) as [rs|e] eqn:Eb.
    + simpl in H. inversion H; subst. exact (attempt_body_from_step _ _ _ Eb).
    + destruct (is_RequestException e).
      * destruct (a =? MAX_RETRIES).
        -- simpl in H. inversion H; subst. intros x [].
        -- destruct (retry_loop step net (a + 1) f) as [r tr] eqn:Er. simpl in H.
           subst. apply (IH (a + 1)). rewrite Er. reflexivity.
      * destruct (is_ValueError e || is_KeyError e); simpl in H; inversion H; subst.
        intros x [].
Qed.

Lemma record_step_upd_some gds r x :
  record_step_upd gds r = Ok (Some x) -> exists d, x = normalize_record_upd gds d.
Proof.
  unfold record_step_upd. destruct r; simpl; try discriminate.
  destruct (in_None_or_1 _); intros H; inversion H; eauto.
Qed.

Lemma record_step_iroq_some gds r x :
  record_step_iroq gds r = Ok (Some x) -> exists d, x = normalize_record_iroq gds d.
Proof.
  unfold record_step_iroq. destruct r; simpl; try discriminate.
  destruct (in_None_or_1 _); intros H; inversion H; eauto.
Qed.

(** C9.  Every record either [fetch_day] returns has exactly the canonical
    keys ([gas_date] then the fourteen mapped columns, in order), and its
    [gas_date] is [query_date.strftime("%Y-%m-%d")], whatever the raw
    record holds; for a valid date that string is the ISO-8601 [YYYY-MM-DD]
    text that reads back to the date. *)
Theorem fetch_day_record_shape :
  (forall net query_date rows row,
      fst (fetch_day_upd net query_date) = Ok rows -> In row rows ->
      map fst row = "gas_date" :: map snd COL_MAP
      /\ dict_get row "gas_date" = Some (PStr (strftime_Y_m_d query_date)))
  /\ (forall net query_date rows row,
      fst (fetch_day_iroq net query_date) = Ok rows -> In row rows ->
      map fst row = CSV_COLUMNS
      /\ dict_get row "gas_date" = Some (PStr (strftime_Y_m_d query_date)))
  /\ (forall query_date, valid_date query_date = true ->
      iso_decode (strftime_Y_m_d query_date)
      = Some (year query_date, month query_date, day query_date)).
Proof.
  split; [|split].
  - intros net qd rows row H Hin.
    destruct (retry_loop_from_step _ _ _ _ _ H row Hin) as [r Hr].
    destruct (record_step_upd_some _ _ _ Hr) as [d ->]. apply normalize_record_upd_keys.
  - intros net qd rows row H Hin.
    destruct (retry_loop_from_step _ _ _ _ _ H row Hin) as [r Hr].
    destruct (record_step_iroq_some _ _ _ Hr) as [d ->]. apply normalize_record_iroq_keys.
  - exact strftime_iso.
Qed.

Lemma fetch_day_record_shape_witness :
  fst (fetch_day_upd (fun _ => Body (PList [rec0])) (mkdate 2025 6 10))
    = Ok [normalize_record_upd "2025-06-10" (match rec0 with PDict d => d | _ => [] end)]
  /\ dict_get (normalize_record_upd "2025-06-10" (match rec0 with PDict d => d | _ => [] end))
       "gas_date" = Some (PStr "2025-06-10")
  /\ iso_decode "2025-06-10" = Some (2025, 6, 10).
Proof.
  destruct fetch_day_record_shape as [H1 [_ H3]].
  assert (E : fst (fetch_day_upd (fun _ => Body (PList [rec0])) (mkdate 2025 6 10))
              = Ok [normalize_record_upd "2025-06-10" (match rec0 with PDict d => d | _ => [] end)])
    by reflexivity.
  split; [exact E|]. split.
  - destruct (H1 _ _ _ _ E (or_introl eq_refl)) as [_ G]. exact G.
  - exact (H3 (mkdate 2025 6 10) eq_refl).
Defined.

(* ------------------------------------------------------------------ *)
(** ** Missing and empty fields *)

Lemma COL_MAP_targets_NoDup : NoDup (map snd COL_MAP).
Proof. simpl. repeat constructor; simpl; intuition discriminate. Qed.

Lemma CSV_COLUMNS_tl_NoDup : NoDup (tl CSV_COLUMNS).
Proof. simpl. repeat constructor; simpl; intuition discriminate. Qed.

Lemma load_targets_NoDup : NoDup (map snd (("gas_date", "gas_date") :: COL_MAP)).
Proof. simpl. repeat constructor; simpl; intuition discriminate. Qed.

Lemma NoDup_split_last {A} (K : A -> string) L1 p L2 :
  NoDup (map K (L1 ++ p :: L2)) -> ~ In (K p) (map K L2).
Proof.
  rewrite map_app. simpl. intros H. apply NoDup_remove_2 in H.
  intros Hin. apply H. apply in_or_app. right. exact Hin.
Qed.

Lemma set_all_get_in {A} (K : A -> string) (F : A -> pyval) L p init :
  NoDup (map K L) -> In p L -> dict_get (set_all K F L init) (K p) = Some (F p).
Proof.
  intros Hnd Hin. destruct (in_split p L Hin) as [L1 [L2 ->]].
  apply set_all_get. exact (NoDup_split_last K L1 p L2 Hnd).
Qed.

Lemma dict_get_map_in {A} (K : A -> string) (G : A -> pyval) L p :
  NoDup (map K L) -> In p L -> dict_get (map (fun q => (K q, G q)) L) (K p) = Some (G p).
Proof.
  induction L as [|q r IH]; simpl; [intros _ []|].
  intros Hnd [<-|Hin].
  - rewrite String.eqb_refl. reflexivity.
  - inversion Hnd as [|? ? Hq Hr]; subst.
    destruct (String.eqb (K p) (K q)) eqn:E.
    + apply String.eqb_eq in E. exfalso. apply Hq. rewrite <- E. apply in_map. exact Hin.
    + apply IH; assumption.
Qed.

Lemma nth_column_index (f : string -> string) L c :
  In c L -> nth (column_index L c) (map f L) "" = f c.
Proof.
  induction L as [|c' r IH]; simpl; [intros []|].
  intros Hin. destruct (String.eqb c' c) eqn:E.
  - apply String.eqb_eq in E. subst. reflexivity.
  - apply IH. destruct Hin as [->|Hin]; [rewrite String.eqb_refl in E; discriminate|exact Hin].
Qed.

Definition absent_or_empty (d : dict) (k : string) : Prop :=
  dict_get d k = None \/ dict_get d k = Some (PStr "").

Lemma normalize_record_iroq_absent gds d col :
  In col (tl CSV_COLUMNS) -> absent_or_empty d col ->
  dict_get (normalize_record_iroq gds d) col = Some (PStr "").
Proof.
  intros Hin Habs.
  change (normalize_record_iroq gds d)
    with (set_all (fun c => c) (iroq_value d) (tl CSV_COLUMNS) [("gas_date", PStr gds)]).
  rewrite (set_all_get_in (fun c => c) (iroq_value d) (tl CSV_COLUMNS) col).
  - unfold iroq_value. destruct Habs as [H|H]; rewrite H; reflexivity.
  - rewrite map_id. exact CSV_COLUMNS_tl_NoDup.
  - exact Hin.
Qed.

(** C4 (corrected).  In [update_db.fetch_day] (the store path) a mapped
    field that is absent from the raw record or holds [""] becomes [None].
    In [fetch_iroquois_oac.fetch_day] (the backfill path) such a field
    becomes the string [""], written as an empty CSV cell. *)
Theorem missing_fields_normalization :
  (forall gds d csv_col db_col,
      In (csv_col, db_col) COL_MAP -> absent_or_empty d csv_col ->
      dict_get (normalize_record_upd gds d) db_col = Some PNone)
  /\ (forall gds d col,
      In col (tl CSV_COLUMNS) -> absent_or_empty d col ->
      dict_get (normalize_record_iroq gds d) col = Some (PStr "")).
Proof.
  split.
  - intros gds d c dc Hin Habs.
    change (normalize_record_upd gds d)
      with (set_all snd (upd_value d) COL_MAP [("gas_date", PStr gds)]).
    change dc with (snd (c, dc)).
    rewrite (set_all_get_in snd (upd_value d) COL_MAP (c, dc)
               _ COL_MAP_targets_NoDup Hin).
    unfold upd_value, dict_get_default.
    destruct Habs as [H|H]; rewrite H; destruct (str_mem dc NUMERIC_COLS); reflexivity.
  - exact normalize_record_iroq_absent.
Qed.

Lemma missing_fields_normalization_witness :
  In ("Loc Name", "loc_name") COL_MAP /\ absent_or_empty [] "Loc Name"
  /\ dict_get (normalize_record_upd "2025-06-10" []) "loc_name" = Some PNone.
Proof.
  assert (Hin : In ("Loc Name", "loc_name") COL_MAP) by (simpl; tauto).
  assert (Ha : absent_or_empty [] "Loc Name") by (left; reflexivity).
  split; [exact Hin|]. split; [exact Ha|].
  destruct missing_fields_normalization as [H _]. exact (H _ _ _ _ Hin Ha).
Defined.

(** C4 counterexample: a raw record without ["Loc Name"] comes out of the
    backfill's [fetch_day] with ["Loc Name"] set to [""], not [None]. *)
Lemma fetch_day_iroq_missing_field_is_empty_string :
  fst (fetch_day_iroq (fun _ => Body (PList [PDict [("Loc", PStr "70001")]])) (mkdate 2025 6 10))
  = Ok [normalize_record_iroq "2025-06-10" [("Loc", PStr "70001")]]
  /\ dict_get (normalize_record_iroq "2025-06-10" [("Loc", PStr "70001")]) "Loc Name"
     = Some (PStr "").
Proof. split; reflexivity. Qed.

(* ------------------------------------------------------------------ *)
(** ** The updater's lookback window *)

Definition window_2025_06_10 : list date :=
  [mkdate 2025 6 8; mkdate 2025 6 9; mkdate 2025 6 10].

Lemma lookback_dates_2025_06_10 :
  lookback_dates (mkdate 2025 6 10) = window_2025_06_10.
Proof. vm_compute. reflexivity. Qed.

(** Whatever the store and the network do, the loop fetches the dates in
    order; either it completes, having fetched all of them, or it stops
    with the exception of the [k]-th date's fetch or upsert. *)
Lemma updater_loop_log {store} (client : store -> list dict -> result store) net :
  forall dates s,
    (exists s', fst (updater_loop store client net dates s) = Ok s'
                /\ snd (updater_loop store client net dates s) = dates)
    \/ (exists e k, fst (updater_loop store client net dates s) = Raise e
                    /\ (k < length dates)%nat
                    /\ snd (updater_loop store client net dates s) = firstn (S k) dates).
Proof.
  induction dates as [|d rest IH]; intros s; simpl.
  - left. exists s. split; reflexivity.
  - destruct (fst (fetch_day_upd (net d) d)) as [records|e].
    + assert (Hrest : forall s1,
        (exists s', fst (let '(r, l) := updater_loop store client net rest s1 in (r, d :: l)) = Ok s'
                    /\ snd (let '(r, l) := updater_loop store client net rest s1 in (r, d :: l)) = d :: rest)
        \/ (exists e k, fst (let '(r, l) := updater_loop store client net rest s1 in (r, d :: l)) = Raise e
                        /\ (k < S (length rest))%nat
                        /\ snd (let '(r, l) := updater_loop store client net rest s1 in (r, d :: l))
                           = d :: firstn k rest)).
      { intros s1. destruct (updater_loop store client net rest s1) as [r l] eqn:E.
        simpl. pose proof (IH s1) as IH1. rewrite E in IH1. simpl in IH1.
        destruct IH1 as [[s' [H1 H2]]|[e [k [H1 [H2 H3]]]]].
        - left. exists s'. subst. split; reflexivity.
        - right. exists e, (S k). subst.
          split; [reflexivity|]. split; [lia|reflexivity]. }
      destruct records as [|r0 rs].
      * exact (Hrest s).
      * destruct (upsert store client s (r0 :: rs)) as [s'|e].
        -- exact (Hrest s').
        -- right. exists e, O. simpl. split; [reflexivity|]. split; [lia|reflexivity].
    + right. exists e, O. simpl. split; [reflexivity|]. split; [lia|reflexivity].
Qed.

Lemma updater_loop_no_raise {store} (client : store -> list dict -> result store) net :
  (forall d, exists rows, fst (fetch_day_upd (net d) d) = Ok rows) ->
  (forall s rows, exists s', client s rows = Ok s') ->
  forall dates s, snd (updater_loop store client net dates s) = dates.
Proof.
  intros Hf Hc. induction dates as [|d rest IH]; intros s; simpl; [reflexivity|].
  destruct (Hf d) as [rows Hr]. rewrite Hr.
  destruct rows as [|r0 rs].
  - destruct (updater_loop store client net rest s) as [r l] eqn:E.
    simpl. f_equal. rewrite <- (IH s), E. reflexivity.
  - unfold upsert. destruct (Hc s (r0 :: rs)) as [s' Hs']. rewrite Hs'.
    destruct (updater_loop store client net rest s') as [r l] eqn:E.
    simpl. f_equal. rewrite <- (IH s'), E. reflexivity.
Qed.

(** C6 (corrected).  Run on 2025-06-10 with credentials set, [update_db]
    calls [fetch_day] on 2025-06-08, 2025-06-09, 2025-06-10 in that order,
    whatever the store holds.  If no [fetch_day] or upsert call raises,
    all three dates are fetched.  If one does, the run ends there, and the
    dates fetched are the window up to and including that date. *)
Theorem updater_lookback_window :
  lookback_dates (mkdate 2025 6 10) = window_2025_06_10
  /\ (forall (store : Type) (client : store -> list dict -> result store) net s0,
        (exists s, fst (main_updater store client (mkdate 2025 6 10) true net s0) = Ok s
                   /\ snd (main_updater store client (mkdate 2025 6 10) true net s0)
                      = window_2025_06_10)
        \/ (exists e k, fst (main_updater store client (mkdate 2025 6 10) true net s0) = Raise e
                        /\ (k < 3)%nat
                        /\ snd (main_updater store client (mkdate 2025 6 10) true net s0)
                           = firstn (S k) window_2025_06_10))
  /\ (forall (store : Type) (client : store -> list dict -> result store) net s0,
        (forall d, exists rows, fst (fetch_day_upd (net d) d) = Ok rows) ->
        (forall s rows, exists s', client s rows = Ok s') ->
        snd (main_updater store client (mkdate 2025 6 10) true net s0) = window_2025_06_10).
Proof.
  split; [exact lookback_dates_2025_06_10|]. split.
  - intros store client net s0. unfold main_updater.
    rewrite lookback_dates_2025_06_10. exact (updater_loop_log client net _ s0).
  - intros store client net s0 Hf Hc. unfold main_updater.
    rewrite lookback_dates_2025_06_10. exact (updater_loop_no_raise client net Hf Hc _ s0).
Qed.

Lemma updater_lookback_window_witness :
  snd (main_updater unit (fun s _ => Ok s) (mkdate 2025 6 10) true
         (fun _ _ => Body (PList [])) tt) = window_2025_06_10.
Proof.
  destruct updater_lookback_window as [_ [_ H]]. apply H.
  - intros d. exists []. reflexivity.
  - intros s rows. exists s. reflexivity.
Defined.

(** C6 counterexample: the endpoint returns one record per date and the
    store rejects the first upsert; the run ends after fetching
    2025-06-08 only. *)
Lemma updater_stops_at_failed_upsert :
  main_updater unit (fun _ _ => Raise StoreError) (mkdate 2025 6 10) true
    (fun _ _ => Body (PList [PDict []])) tt
  = (Raise StoreError, [mkdate 2025 6 8]).
Proof. vm_compute. reflexivity. Qed.

(* ------------------------------------------------------------------ *)
(** ** Resuming the backfill *)

Lemma filter_negb_all_true {A} (P : A -> bool) (l : list A) :
  (forall x, In x l -> P x = true) -> filter (fun x => negb (P x)) l = [].
Proof.
  induction l as [|x r IH]; simpl; intros H; [reflexivity|].
  rewrite (H x (or_introl eq_refl)). simpl. apply IH. intros y Hy. apply H. right. exact Hy.
Qed.

(** When [get_existing_dates] reports every date of the range, a run
    fetches nothing and leaves the output as it is. *)
Lemma backfill_covered start end_date net kill_at file :
  (forall d, In d (date_range start end_date) ->
             str_mem (strftime_Y_m_d d) (get_existing_dates file) = true) ->
  backfill start end_date net kill_at file = (file, []).
Proof.
  intros H. unfold backfill. cbv zeta.
  rewrite (filter_negb_all_true (fun d => str_mem (strftime_Y_m_d d) (get_existing_dates file))
             _ H).
  reflexivity.
Qed.

(** One raw record: location 70001, receipt, flow [R]. *)
Definition recX_fields : dict :=
  [("Loc", PStr "70001"); ("Loc Purp Desc", PStr "Receipt");
   ("Flow Ind Desc", PStr "R"); ("OAC", PInt 5)].

(** An endpoint with data for 2026-10-15 only (one record), and no data
    for any other date. *)
Definition net_one_day (d : date) (_ : Z) : outcome :=
  if ((year d =? 2026) && (month d =? 10) && (day d =? 15))%bool
  then Body (PList [PDict recX_fields]) else Body (PList []).

Definition rowX : line := write_line (normalize_record_iroq "2026-10-15" recX_fields).

(** C1 (code bug).  Run 1 on 2026-10-16 is killed after 100 dates, all
    without data, so the header is still in the write buffer: the file
    exists but is empty.  Run 2 sees an existing file, writes no header,
    and appends the one record as the first line.  Run 3's [DictReader]
    takes that line as the header; [gas_date] is not a field name, so no
    date counts as done and the record is fetched and written again: the
    output holds two rows with the same key. *)
Theorem backfill_resume_duplicates :
  let f1 := fst (main_backfill (mkdate 2026 10 16) net_one_day (Some 100%nat) None) in
  let f2 := fst (main_backfill (mkdate 2026 10 16) net_one_day None f1) in
  let f3 := fst (main_backfill (mkdate 2026 10 16) net_one_day None f2) in
  f1 = Some [] /\ f2 = Some [rowX] /\ f3 = Some [rowX; rowX]
  /\ output_rows f3 = [rowX; rowX]
  /\ row_key rowX = ("2026-10-15", "70001", "Receipt", "R").
Proof.
  vm_compute. split; [reflexivity|]. split; [reflexivity|]. split; [reflexivity|].
  split; reflexivity.
Qed.

(** An endpoint with one record for every date. *)
Definition net_every_day (d : date) (_ : Z) : outcome := Body (PList [PDict recX_fields]).

Definition rowX_on (gds : string) : line := write_line (normalize_record_iroq gds recX_fields).

Definition rows_2010_01_01_to_03 : list line :=
  [rowX_on "2010-01-01"; rowX_on "2010-01-02"; rowX_on "2010-01-03"].

(** C5 (code bug).  Run 1 on 2010-01-03 is killed before its first
    flush, leaving an empty file.  Run 2 completes; every date of
    [[START_DATE, today]] now has its row in the output, but there is no
    header.  Run 3 fetches all three dates again and appends them, so the
    output changes. *)
Theorem backfill_rerun_not_idempotent :
  let f1 := fst (main_backfill (mkdate 2010 1 3) net_every_day (Some 0%nat) None) in
  let f2 := fst (main_backfill (mkdate 2010 1 3) net_every_day None f1) in
  let r3 := main_backfill (mkdate 2010 1 3) net_every_day None f2 in
  f1 = Some []
  /\ f2 = Some rows_2010_01_01_to_03
  /\ map (fun l => nth 0 l "") rows_2010_01_01_to_03 = ["2010-01-01"; "2010-01-02"; "2010-01-03"]
  /\ snd r3 = [mkdate 2010 1 1; mkdate 2010 1 2; mkdate 2010 1 3]
  /\ fst r3 = Some (rows_2010_01_01_to_03 ++ rows_2010_01_01_to_03)%list.
Proof.
  vm_compute. split; [reflexivity|]. split; [reflexivity|]. split; [reflexivity|].
  split; reflexivity.
Qed.

(** With the header on disk the resume works: a complete run from no file
    followed by a second run leaves the output unchanged and fetches
    nothing. *)
Lemma backfill_rerun_with_header :
  let f1 := fst (main_backfill (mkdate 2010 1 3) net_every_day None None) in
  f1 = Some (CSV_COLUMNS :: rows_2010_01_01_to_03)
  /\ main_backfill (mkdate 2010 1 3) net_every_day None f1 = (f1, []).
Proof. vm_compute. split; reflexivity. Qed.

(* ================================================================== *)
(** * Further properties of the code *)


(** The CSV rows a run writes for date [d]: one per record [fetch_day]
    returns. *)
Definition day_rows (net : date -> Z -> outcome) (d : date) : list line :=
  match fst (fetch_day_iroq (net d) d) with
  | Ok recs => map write_line recs
  | Raise _ => []
  end.

(** [fetch_day] returned no record for [d]. *)
Definition no_records (net : date -> Z -> outcome) (d : date) : bool :=
  match fst (fetch_day_iroq (net d) d) with Ok [] => true | _ => false end.

(** The endpoint never makes [fetch_day] raise on these dates. *)
Definition fetch_never_raises (net : date -> Z -> outcome) (ds : list date) : Prop :=
  forall d, In d ds -> exists recs, fst (fetch_day_iroq (net d) d) = Ok recs.

(** [todo] of [main]: the dates of the range not in the output yet. *)
Definition todo_dates (start end_date : date) (file : csvfile) : list date :=
  filter (fun d => negb (str_mem (strftime_Y_m_d d) (get_existing_dates file)))
    (date_range start end_date).

Lemma ltb_SS (a b : nat) : (S a <? S b)%nat = (a <? b)%nat.
Proof. reflexivity. Qed.

Lemma day_rows_ok net d recs :
  fst (fetch_day_iroq (net d) d) = Ok recs -> day_rows net d = map write_line recs.
Proof. unfold day_rows. intros ->. reflexivity. Qed.

Lemma write_loop_kill net k todo idx buf :
  fetch_never_raises net todo -> (idx <= k)%nat ->
  write_loop net (Some k) todo idx buf
  = (if ((k - idx <? length todo)%nat
         && match flat_map (day_rows net) (firstn (k - idx) todo) with [] => true | _ => false end)%bool
     then [] else (buf ++ flat_map (day_rows net) (firstn (k - idx) todo))%list,
     firstn (k - idx) todo).
Proof.
  revert idx buf. induction todo as [|d rest IH]; intros idx buf Hf Hk.
  - simpl. rewrite firstn_nil. simpl. rewrite app_nil_r.
    destruct (k - idx)%nat; reflexivity.
  - cbn [write_loop]. destruct (Nat.eqb k idx) eqn:Ek.
    + apply Nat.eqb_eq in Ek. subst. rewrite Nat.sub_diag. reflexivity.
    + apply Nat.eqb_neq in Ek.
      destruct (Hf d (or_introl eq_refl)) as [recs Hr].
      assert (Hf' : fetch_never_raises net rest) by (intros x Hx; apply Hf; right; exact Hx).
      replace (k - idx)%nat with (S (k - S idx)) by lia.
      cbn [firstn flat_map length]. rewrite ltb_SS, (day_rows_ok _ _ _ Hr), Hr.
      destruct recs as [|r0 rs].
      * rewrite (IH (S idx) buf Hf' ltac:(lia)). cbn [map app]. reflexivity.
      * rewrite (IH (S idx) [] Hf' ltac:(lia)).
        set (rows' := flat_map (day_rows net) (firstn (k - S idx) rest)).
        assert (Hw : (if ((k - S idx <? length rest)%nat
                          && match rows' with [] => true | _ => false end)%bool
                      then [] else ([] ++ rows')%list) = rows').
        { destruct rows' as [|x xs]; destruct (k - S idx <? length rest)%nat; reflexivity. }
        rewrite Hw. cbn [map app andb]. rewrite andb_false_r. reflexivity.
Qed.

Lemma write_loop_complete net todo idx buf :
  fetch_never_raises net todo ->
  write_loop net None todo idx buf = ((buf ++ flat_map (day_rows net) todo)%list, todo).
Proof.
  revert idx buf. induction todo as [|d rest IH]; intros idx buf Hf.
  - simpl. rewrite app_nil_r. reflexivity.
  - cbn [write_loop]. destruct (Hf d (or_introl eq_refl)) as [recs Hr].
    assert (Hf' : fetch_never_raises net rest) by (intros x Hx; apply Hf; right; exact Hx).
    cbn [flat_map]. rewrite (day_rows_ok _ _ _ Hr), Hr.
    destruct recs as [|r0 rs].
    + rewrite (IH (S idx) buf Hf'). reflexivity.
    + rewrite (IH (S idx) [] Hf'). cbn [map app]. reflexivity.
Qed.

Lemma sdict_get_set_neq d k k' v : k <> k' -> sdict_get (sdict_set d k v) k' = sdict_get d k'.
Proof.
  intros Hne. induction d as [|[k0 v0] r IH]; simpl.
  - apply String.eqb_neq in Hne. rewrite String.eqb_sym, Hne. reflexivity.
  - destruct (String.eqb k k0) eqn:E; simpl.
    + apply String.eqb_eq in E. subst.
      apply String.eqb_neq in Hne. rewrite String.eqb_sym, Hne. reflexivity.
    + rewrite IH. reflexivity.
Qed.

Lemma sdict_fold_other {A} (key : A -> string) (val : A -> option string) l d k :
  (forall x, In x l -> key x <> k) ->
  sdict_get (fold_left (fun d x => sdict_set d (key x) (val x)) l d) k = sdict_get d k.
Proof.
  revert d. induction l as [|x r IH]; intros d H; simpl; [reflexivity|].
  rewrite IH by (intros y Hy; apply H; right; exact Hy).
  apply sdict_get_set_neq. apply H. left. reflexivity.
Qed.

Lemma gas_date_not_in_tl : ~ In "gas_date" (tl CSV_COLUMNS).
Proof. simpl. intuition discriminate. Qed.

Lemma In_skipn_In {A} (x : A) n l : In x (skipn n l) -> In x l.
Proof. intros H. rewrite <- (firstn_skipn n l). apply in_or_app. right. exact H. Qed.

Lemma reader_row_first h T c cs :
  ~ In h T -> sdict_get (reader_row (h :: T) (c :: cs)) h = Some (Some c).
Proof.
  intros Hn. unfold reader_row.
  change (combine (h :: T) (c :: cs)) with ((h, c) :: combine T cs).
  change (skipn (length (c :: cs)) (h :: T)) with (skipn (length cs) T).
  rewrite (sdict_fold_other (fun k => k) (fun _ => None)).
  - cbn [fold_left fst snd]. rewrite (sdict_fold_other fst (fun kv => Some (snd kv))).
    + simpl. rewrite String.eqb_refl. reflexivity.
    + intros [k v] Hin E. simpl in E. subst. apply in_combine_l in Hin. exact (Hn Hin).
  - intros k Hin E. subst. apply In_skipn_In in Hin. exact (Hn Hin).
Qed.

(** A [DictReader] over the backfill's header reads a row's first cell as
    its [gas_date]. *)
Lemma reader_row_gas_date c cs :
  sdict_get (reader_row CSV_COLUMNS (c :: cs)) "gas_date" = Some (Some c).
Proof. exact (reader_row_first "gas_date" (tl CSV_COLUMNS) c cs gas_date_not_in_tl). Qed.

Lemma str_mem_In x l : str_mem x l = true <-> In x l.
Proof.
  unfold str_mem. rewrite existsb_exists. split.
  - intros [y [Hy E]]. apply String.eqb_eq in E. subst. exact Hy.
  - intros H. exists x. split; [exact H|apply String.eqb_refl].
Qed.

Lemma set_add_In x y s : In y (set_add x s) <-> y = x \/ In y s.
Proof.
  unfold set_add. destruct (str_mem x s) eqn:E.
  - apply str_mem_In in E. split; [tauto|]. intros [->|H]; assumption.
  - rewrite in_app_iff. simpl. intuition.
Qed.

(** The dates [get_existing_dates] reads from a file that starts with the
    backfill's header: the non-empty first cells of its non-blank rows. *)
Lemma get_existing_dates_header rows g :
  In g (get_existing_dates (Some (CSV_COLUMNS :: rows)))
  <-> exists c cs, In (c :: cs) rows /\ g = c /\ c <> "".
Proof.
  unfold get_existing_dates.
  assert (Hm : str_mem "gas_date" CSV_COLUMNS = true) by reflexivity. rewrite Hm.
  assert (Gen : forall acc,
    In g (fold_left
            (fun dates row =>
               match row with
               | [] => dates
               | _ :: _ =>
                   match sdict_get (reader_row CSV_COLUMNS row) "gas_date" with
                   | Some (Some g) => if String.eqb g "" then dates else set_add g dates
                   | _ => dates
                   end
               end) rows acc)
    <-> In g acc \/ exists c cs, In (c :: cs) rows /\ g = c /\ c <> "").
  { induction rows as [|row r IH]; intros acc; simpl.
    - split; [tauto|]. intros [H|[c [cs [[] _]]]]. exact H.
    - rewrite IH. destruct row as [|c cs].
      + split.
        * intros [H|[c [cs [H1 H2]]]]; [left; exact H|right; exists c, cs; tauto].
        * intros [H|[c [cs [[E|H1] H2]]]]; [left; exact H|discriminate|right; exists c, cs; tauto].
      + rewrite reader_row_gas_date. destruct (String.eqb c "") eqn:Ec.
        * apply String.eqb_eq in Ec. subst. split.
          -- intros [H|[c' [cs' [H1 H2]]]]; [left; exact H|right; exists c', cs'; tauto].
          -- intros [H|[c' [cs' [[E|H1] [H2 H3]]]]]; [left; exact H| |right; exists c', cs'; tauto].
             inversion E; subst. contradiction.
        * apply String.eqb_neq in Ec. rewrite set_add_In. split.
          -- intros [[->|H]|[c' [cs' [H1 H2]]]].
             ++ right. exists c, cs. tauto.
             ++ left. exact H.
             ++ right. exists c', cs'. tauto.
          -- intros [H|[c' [cs' [[E|H1] [H2 H3]]]]].
             ++ left. right. exact H.
             ++ inversion E; subst. left. left. reflexivity.
             ++ right. exists c', cs'. tauto. }
  rewrite Gen. simpl. split; [intros [[]|H]; exact H|intros H; right; exact H].
Qed.

Lemma days_in_month_bounds y m : 28 <= days_in_month y m <= 31.
Proof.
  unfold days_in_month. destruct (m =? 2); [destruct (is_leap y); lia|].
  destruct ((m =? 4) || (m =? 6) || (m =? 9) || (m =? 11))%bool; lia.
Qed.

Ltac bool_to_prop :=
  repeat match goal with
  | H : (_ && _)%bool = true |- _ => apply andb_true_iff in H; destruct H
  | H : (_ || _)%bool = true |- _ => apply orb_true_iff in H
  | H : (_ <=? _) = true |- _ => apply Z.leb_le in H
  | H : (_ <? _) = true |- _ => apply Z.ltb_lt in H
  | H : (_ <? _) = false |- _ => apply Z.ltb_ge in H
  | H : (_ =? _) = true |- _ => apply Z.eqb_eq in H
  | |- (_ && _)%bool = true => apply andb_true_iff; split
  | |- (_ <=? _) = true => apply Z.leb_le
  end.

(** The day after a valid date, up to a valid end date, is valid. *)
Lemma next_day_valid d e :
  valid_date d = true -> valid_date e = true -> date_le (next_day d) e = true ->
  valid_date (next_day d) = true.
Proof.
  destruct d as [y m dd], e as [ye me de]. unfold valid_date, next_day, date_le.
  cbn [year month day]. intros Hd He Hle.
  pose proof (days_in_month_bounds y m) as B1.
  destruct (dd <? days_in_month y m) eqn:E1.
  - cbn [year month day] in *. bool_to_prop; lia.
  - destruct (m <? 12) eqn:E2; cbn [year month day] in *.
    + pose proof (days_in_month_bounds y (m + 1)). bool_to_prop; lia.
    + pose proof (days_in_month_bounds (y + 1) 1).
      assert (y + 1 <= ye)
        by (apply orb_true_iff in Hle; destruct Hle as [Hle|Hle]; bool_to_prop; lia).
      bool_to_prop; lia.
Qed.

Lemma date_range_fuel_le f cur e d : In d (date_range_fuel f cur e) -> date_le cur e = true.
Proof.
  destruct f; simpl; [intros []|]. destruct (date_le cur e); [reflexivity|intros []].
Qed.

Lemma date_range_fuel_valid f cur e d :
  valid_date cur = true -> valid_date e = true -> In d (date_range_fuel f cur e) ->
  valid_date d = true.
Proof.
  revert cur. induction f as [|f IH]; intros cur Hc He; simpl; [intros []|].
  destruct (date_le cur e); [|intros []].
  intros [<-|Hin]; [exact Hc|].
  apply (IH (next_day cur)); [|exact He|exact Hin].
  apply (next_day_valid cur e Hc He). exact (date_range_fuel_le _ _ _ _ Hin).
Qed.

Lemma date_range_valid start end_date d :
  valid_date start = true -> valid_date end_date = true ->
  In d (date_range start end_date) -> valid_date d = true.
Proof. apply date_range_fuel_valid. Qed.

Lemma strftime_inj d d' :
  valid_date d = true -> valid_date d' = true ->
  strftime_Y_m_d d = strftime_Y_m_d d' -> d = d'.
Proof.
  intros H H' E. pose proof (strftime_iso d H) as A1. pose proof (strftime_iso d' H') as A2.
  rewrite E, A2 in A1. inversion A1.
  destruct d, d'; cbn in *; subst. reflexivity.
Qed.

Lemma strftime_nonempty d : strftime_Y_m_d d <> "".
Proof. unfold strftime_Y_m_d, pad4. discriminate. Qed.

(** Every CSV row written for date [d] starts with [d]'s ISO text. *)
Lemma day_rows_first_cell net d row :
  In row (day_rows net d) -> exists cs, row = strftime_Y_m_d d :: cs.
Proof.
  unfold day_rows. destruct (fst (fetch_day_iroq (net d) d)) as [recs|e] eqn:E; [|intros []].
  intros Hin. apply in_map_iff in Hin. destruct Hin as [r [<- Hr]].
  destruct (retry_loop_from_step _ _ _ _ _ E r Hr) as [x Hx].
  destruct (record_step_iroq_some _ _ _ Hx) as [dd ->].
  destruct (normalize_record_iroq_keys (strftime_Y_m_d d) dd) as [_ Hg].
  unfold write_line. change CSV_COLUMNS with ("gas_date" :: tl CSV_COLUMNS).
  cbn [map]. rewrite Hg. eexists. reflexivity.
Qed.

Lemma no_records_day_rows net d recs :
  fst (fetch_day_iroq (net d) d) = Ok recs ->
  no_records net d = match day_rows net d with [] => true | _ => false end.
Proof.
  intros E. unfold no_records. rewrite (day_rows_ok _ _ _ E), E. destruct recs; reflexivity.
Qed.

Lemma filter_str_mem_nil (l : list date) :
  filter (fun d => negb (str_mem (strftime_Y_m_d d) [])) l = l.
Proof. induction l as [|d r IH]; [reflexivity|]. cbn [filter]. rewrite IH. reflexivity. Qed.

Lemma fetch_never_raises_incl net l1 l2 :
  (forall x, In x l2 -> In x l1) -> fetch_never_raises net l1 -> fetch_never_raises net l2.
Proof. intros Hi H d Hd. apply H, Hi, Hd. Qed.

Lemma backfill_fresh_run_eq start end_date net :
  date_range start end_date <> [] -> fetch_never_raises net (date_range start end_date) ->
  backfill start end_date net None None
  = (Some (CSV_COLUMNS :: flat_map (day_rows net) (date_range start end_date)),
     date_range start end_date).
Proof.
  intros Hne Hf. unfold backfill. cbv zeta.
  change (get_existing_dates None) with (@nil string).
  rewrite filter_str_mem_nil.
  destruct (date_range start end_date) as [|d0 l] eqn:Er; [congruence|].
  cbn [negb orb]. rewrite (write_loop_complete net (d0 :: l) 0 [CSV_COLUMNS] Hf). reflexivity.
Qed.

(** X1.  A complete run with no output file writes the header, then one CSV
    row per record, date after date through the whole range. *)
Theorem backfill_fresh_run start end_date net :
  date_range start end_date <> [] -> fetch_never_raises net (date_range start end_date) ->
  backfill start end_date net None None
  = (Some (CSV_COLUMNS :: flat_map (day_rows net) (date_range start end_date)),
     date_range start end_date).
Proof. exact (backfill_fresh_run_eq start end_date net). Qed.

(** X2.  After a complete run with no output file, a second run (the endpoint
    answering as before) fetches exactly the dates that had no record. *)
Theorem backfill_resume_after_complete_run start end_date net :
  valid_date start = true -> valid_date end_date = true ->
  date_range start end_date <> [] -> fetch_never_raises net (date_range start end_date) ->
  snd (backfill start end_date net None (fst (backfill start end_date net None None)))
  = filter (no_records net) (date_range start end_date).
Proof.
  intros Hs He Hne Hf. rewrite (backfill_fresh_run_eq start end_date net Hne Hf). cbn [fst].
  set (R := flat_map (day_rows net) (date_range start end_date)).
  unfold backfill. cbv zeta.
  assert (Hfl : filter (fun d => negb (str_mem (strftime_Y_m_d d)
                                        (get_existing_dates (Some (CSV_COLUMNS :: R)))))
                  (date_range start end_date)
                = filter (no_records net) (date_range start end_date)).
  { apply filter_ext_in. intros d Hd.
    destruct (Hf d Hd) as [recs Hr]. rewrite (no_records_day_rows net d recs Hr).
    destruct (str_mem (strftime_Y_m_d d) (get_existing_dates (Some (CSV_COLUMNS :: R)))) eqn:Es.
    - apply str_mem_In, get_existing_dates_header in Es.
      destruct Es as [c [cs [Hin [Hc _]]]]. subst c.
      unfold R in Hin. apply in_flat_map in Hin. destruct Hin as [d' [Hd' Hrow]].
      destruct (day_rows_first_cell _ _ _ Hrow) as [cs' E].
      pose proof (f_equal (hd "") E) as E1. cbn [hd] in E1.
      assert (d' = d).
      { apply strftime_inj; [exact (date_range_valid _ _ _ Hs He Hd')
                            |exact (date_range_valid _ _ _ Hs He Hd)|symmetry; exact E1]. }
      subst d'. destruct (day_rows net d); [destruct Hrow|reflexivity].
    - destruct (day_rows net d) as [|row rows] eqn:Edr; [reflexivity|].
      exfalso. assert (Hin : In row (day_rows net d)) by (rewrite Edr; left; reflexivity).
      destruct (day_rows_first_cell _ _ _ Hin) as [cs E].
      assert (Hm : In (strftime_Y_m_d d) (get_existing_dates (Some (CSV_COLUMNS :: R)))).
      { apply get_existing_dates_header. exists (strftime_Y_m_d d), cs. split; [|split].
        - rewrite <- E. unfold R. apply in_flat_map. exists d. split; assumption.
        - reflexivity.
        - apply strftime_nonempty. }
      apply str_mem_In in Hm. congruence. }
  rewrite Hfl.
  destruct (filter (no_records net) (date_range start end_date)) as [|d0 l] eqn:Eq;
    [reflexivity|].
  assert (Hf' : fetch_never_raises net (d0 :: l)).
  { apply (fetch_never_raises_incl net (date_range start end_date)); [|exact Hf].
    intros x Hx. rewrite <- Eq in Hx. apply filter_In in Hx. tauto. }
  rewrite (write_loop_complete net (d0 :: l) 0 _ Hf'). reflexivity.
Qed.

(** X3.  A run killed before its [k]-th fetch keeps every row of the dates
    fetched before: on a file that has its header, the previous lines
    followed by the rows of the first [k] dates; with no file, the header
    and those rows, except that nothing reaches the disk when none of
    these dates had a record and the run was cut short. *)
Theorem backfill_killed_run start end_date net k file :
  todo_dates start end_date file <> [] ->
  fetch_never_raises net (todo_dates start end_date file) ->
  (forall rest, file = Some (CSV_COLUMNS :: rest) ->
     backfill start end_date net (Some k) file
     = (Some ((CSV_COLUMNS :: rest)
              ++ flat_map (day_rows net) (firstn k (todo_dates start end_date file)))%list,
        firstn k (todo_dates start end_date file)))
  /\ (file = None ->
     backfill start end_date net (Some k) file
     = (Some (if ((k <? length (todo_dates start end_date file))%nat
                  && match flat_map (day_rows net) (firstn k (todo_dates start end_date file))
                     with [] => true | _ => false end)%bool
              then []
              else CSV_COLUMNS :: flat_map (day_rows net) (firstn k (todo_dates start end_date file))),
        firstn k (todo_dates start end_date file))).
Proof.
  intros Hne Hf. split.
  - intros rest ->. unfold backfill. cbv zeta.
    change (filter _ (date_range start end_date))
      with (todo_dates start end_date (Some (CSV_COLUMNS :: rest))).
    destruct (todo_dates start end_date (Some (CSV_COLUMNS :: rest))) as [|d0 l] eqn:Et;
      [congruence|].
    rewrite orb_true_r.
    rewrite (write_loop_kill net k (d0 :: l) 0 (@nil (list string)) Hf (Nat.le_0_l k)), Nat.sub_0_r.
    destruct (flat_map (day_rows net) (firstn k (d0 :: l)));
      destruct (k <? length (d0 :: l))%nat; reflexivity.
  - intros ->. unfold backfill. cbv zeta.
    change (filter _ (date_range start end_date)) with (todo_dates start end_date None).
    destruct (todo_dates start end_date None) as [|d0 l] eqn:Et; [congruence|].
    change (get_existing_dates None) with (@nil string). cbn [negb orb].
    rewrite (write_loop_kill net k (d0 :: l) 0 [CSV_COLUMNS] Hf (Nat.le_0_l k)), Nat.sub_0_r.
    destruct (_ && _)%bool; reflexivity.
Qed.

(* normalizers *)

(** X4.  [fetch_iroquois_oac.clean_numeric] is idempotent: cleaning a
    cleaned value changes nothing. *)
Theorem clean_numeric_iroq_idempotent v :
  clean_numeric_iroq (clean_numeric_iroq v) = clean_numeric_iroq v.
Proof.
  destruct v as [| | | |s| |]; try reflexivity.
  unfold clean_numeric_iroq at 2. cbv zeta.
  destruct (int_parse (py_strip (remove_commas s))) eqn:Ei.
  - unfold clean_numeric_iroq. cbv zeta.
    rewrite strip_remove_commas_fixed, Ei. reflexivity.
  - destruct (float_parse (py_strip (remove_commas s))) eqn:Ef.
    + unfold clean_numeric_iroq. cbv zeta.
      rewrite strip_remove_commas_fixed, Ei, Ef. reflexivity.
    + unfold clean_numeric_iroq. cbv zeta. rewrite Ei, Ef. reflexivity.
Qed.

(** X5.  [update_db.fetch_day] on a text column ([val or None]): a falsy raw
    value ([0], [False], [""], [[]], [{}], [None], a zero float) is stored
    as [None], a truthy one as it is; on a numeric column an [int] is
    stored as it is, zero included. *)
Theorem normalize_record_upd_truthiness gds d csv_col db_col v :
  In (csv_col, db_col) COL_MAP -> dict_get d csv_col = Some v ->
  (str_mem db_col NUMERIC_COLS = false ->
   dict_get (normalize_record_upd gds d) db_col = Some (if py_truthy v then v else PNone))
  /\ (str_mem db_col NUMERIC_COLS = true -> forall z, v = PInt z ->
      dict_get (normalize_record_upd gds d) db_col = Some (PInt z)).
Proof.
  intros Hin Hv.
  change (normalize_record_upd gds d)
    with (set_all snd (upd_value d) COL_MAP [("gas_date", PStr gds)]).
  change db_col with (snd (csv_col, db_col)).
  rewrite (set_all_get_in snd (upd_value d) COL_MAP (csv_col, db_col)
             _ COL_MAP_targets_NoDup Hin).
  unfold upd_value, dict_get_default. rewrite Hv. cbn [snd]. split.
  - intros Hn. rewrite Hn. reflexivity.
  - intros Hn z ->. rewrite Hn. reflexivity.
Qed.

(* integers through the CSV *)

(** The value of a decimal digit string, read most significant digit
    first. *)
Fixpoint uhorner (u : Decimal.uint) (acc : Z) : Z :=
  match u with
  | Decimal.Nil => acc
  | Decimal.D0 r => uhorner r (acc * 10 + 0)
  | Decimal.D1 r => uhorner r (acc * 10 + 1)
  | Decimal.D2 r => uhorner r (acc * 10 + 2)
  | Decimal.D3 r => uhorner r (acc * 10 + 3)
  | Decimal.D4 r => uhorner r (acc * 10 + 4)
  | Decimal.D5 r => uhorner r (acc * 10 + 5)
  | Decimal.D6 r => uhorner r (acc * 10 + 6)
  | Decimal.D7 r => uhorner r (acc * 10 + 7)
  | Decimal.D8 r => uhorner r (acc * 10 + 8)
  | Decimal.D9 r => uhorner r (acc * 10 + 9)
  end.

Lemma scan_digits_uint u acc n :
  scan_digits (NilEmpty.string_of_uint u) acc n
  = (uhorner u acc, (n + Decimal.nb_digits u)%nat, EmptyString).
Proof.
  revert acc n. induction u; intros acc n; cbn [NilEmpty.string_of_uint uhorner Decimal.nb_digits];
    try (rewrite Nat.add_0_r; reflexivity);
    cbn [scan_digits]; rewrite IHu, Nat.add_succ_r; reflexivity.
Qed.

Lemma of_uint_acc_horner u acc :
  Zpos (Pos.of_uint_acc u acc) = uhorner u (Zpos acc).
Proof.
  revert acc. induction u; intros acc; cbn [Pos.of_uint_acc uhorner];
    try reflexivity; rewrite IHu; f_equal; lia.
Qed.

Lemma of_uint_horner u : Z.of_N (Pos.of_uint u) = uhorner u 0.
Proof.
  induction u; cbn [Pos.of_uint uhorner Z.of_N]; try reflexivity;
    [exact IHu|..]; rewrite of_uint_acc_horner; reflexivity.
Qed.

Lemma uhorner_to_uint p : uhorner (Pos.to_uint p) 0 = Zpos p.
Proof.
  rewrite <- of_uint_horner, DecimalPos.Unsigned.of_to. reflexivity.
Qed.

Fixpoint no_space (s : string) : bool :=
  match s with
  | EmptyString => true
  | String c r => negb (is_space c) && no_space r
  end.

Lemma rstrip_no_space s : no_space s = true -> rstrip s = s.
Proof.
  induction s as [|c r IH]; simpl; [reflexivity|].
  intros H. apply andb_true_iff in H. destruct H as [Hc Hr].
  rewrite IH by exact Hr. apply negb_true_iff in Hc. rewrite Hc, andb_false_r. reflexivity.
Qed.

Lemma py_strip_no_space s : no_space s = true -> py_strip s = s.
Proof.
  intros H. unfold py_strip. destruct s as [|c r]; [reflexivity|].
  pose proof H as H'. simpl in H'. apply andb_true_iff in H'. destruct H' as [Hc _].
  apply negb_true_iff in Hc.
  cbn [lstrip]. rewrite Hc. apply rstrip_no_space. exact H.
Qed.

Lemma no_space_uint u : no_space (NilEmpty.string_of_uint u) = true.
Proof. induction u; simpl; try rewrite IHu; reflexivity. Qed.

Lemma comma_free_uint u : comma_free (NilEmpty.string_of_uint u).
Proof. induction u; simpl; try split; try discriminate; auto. Qed.

Lemma scan_sign_uint u : u <> Decimal.Nil ->
  scan_sign (NilEmpty.string_of_uint u) = (false, NilEmpty.string_of_uint u).
Proof. destruct u; intros H; [congruence|..]; reflexivity. Qed.

Lemma nb_digits_nonnil u : u <> Decimal.Nil -> exists k, Decimal.nb_digits u = S k.
Proof. destruct u; intros H; [congruence|..]; eexists; reflexivity. Qed.

(** [int(str(z))] gives back [z]. *)
Lemma int_parse_Z_to_string z : int_parse (Z_to_string z) = Some z.
Proof.
  destruct z as [|p|p]; [reflexivity|..];
    unfold Z_to_string; cbn [Z.to_int NilEmpty.string_of_int];
    pose proof (DecimalPos.Unsigned.to_uint_nonnil p) as Hn;
    destruct (nb_digits_nonnil _ Hn) as [k Hk];
    unfold int_parse.
  - rewrite py_strip_no_space by apply no_space_uint.
    rewrite scan_sign_uint by exact Hn. rewrite scan_digits_uint, Hk.
    cbn [Nat.add]. rewrite uhorner_to_uint. reflexivity.
  - rewrite py_strip_no_space by (cbn [no_space]; rewrite no_space_uint; reflexivity).
    cbn [scan_sign Ascii.eqb Bool.eqb]. rewrite scan_digits_uint, Hk.
    cbn [Nat.add]. rewrite uhorner_to_uint. reflexivity.
Qed.

Lemma Z_to_string_nonempty z : String.eqb (Z_to_string z) "" = false.
Proof.
  destruct z as [|p|p]; [reflexivity| |reflexivity].
  unfold Z_to_string; cbn [Z.to_int NilEmpty.string_of_int].
  pose proof (DecimalPos.Unsigned.to_uint_nonnil p) as Hn.
  destruct (Pos.to_uint p); [congruence|..]; reflexivity.
Qed.

Lemma comma_free_Z_to_string z : comma_free (Z_to_string z).
Proof.
  destruct z as [|p|p]; unfold Z_to_string; cbn [Z.to_int NilEmpty.string_of_int].
  - simpl. split; [discriminate|exact I].
  - apply comma_free_uint.
  - cbn [comma_free]. split; [discriminate|apply comma_free_uint].
Qed.

Lemma coerce_numeric_Z_to_string z : coerce_numeric (PStr (Z_to_string z)) = PInt z.
Proof.
  unfold coerce_numeric. rewrite Z_to_string_nonempty.
  rewrite remove_commas_id by apply comma_free_Z_to_string.
  destruct z as [|p|p]; [reflexivity|..];
  [rewrite py_strip_no_space by (unfold Z_to_string; cbn [Z.to_int NilEmpty.string_of_int]; apply no_space_uint)
  |rewrite py_strip_no_space by (unfold Z_to_string; cbn [Z.to_int NilEmpty.string_of_int no_space]; rewrite no_space_uint; reflexivity)];
  rewrite int_parse_Z_to_string; reflexivity.
Qed.

Lemma load_csv_row_write_line_get r c dc :
  In (c, dc) COL_MAP ->
  dict_get (load_csv_row (write_line r)) dc
  = Some (load_value (write_line r) (c, dc)).
Proof.
  intros Hin. unfold load_csv_row. change dc with (snd (c, dc)).
  exact (dict_get_map_in snd (load_value _) _ (c, dc) load_targets_NoDup (or_intror Hin)).
Qed.

Lemma write_line_cell r c :
  In c CSV_COLUMNS ->
  nth (column_index CSV_COLUMNS c) (write_line r) ""
  = match dict_get r c with Some v => csv_cell v | None => "" end.
Proof. intros Hc. unfold write_line. apply nth_column_index. exact Hc. Qed.

Lemma COL_MAP_source_in c dc : In (c, dc) COL_MAP -> In c CSV_COLUMNS.
Proof.
  intros Hin. right. change (tl CSV_COLUMNS) with (map fst COL_MAP).
  exact (in_map fst COL_MAP (c, dc) Hin).
Qed.

(** X6.  A value the backfill writes to the CSV is read back by the bulk
    loader as it was: the cell written for an [int] in a numeric column
    is turned back into the same [int] (negative ones included) by
    [coerce_numeric]; a non-empty string in a text column comes back as
    the same string. *)
Theorem write_then_load_roundtrip r c dc v :
  In (c, dc) COL_MAP -> dict_get r c = Some v ->
  (forall z, str_mem dc NUMERIC_COLS = true -> v = PInt z ->
     coerce_numeric (PStr (nth (column_index CSV_COLUMNS c) (write_line r) "")) = PInt z)
  /\ (forall s, str_mem dc NUMERIC_COLS = false -> v = PStr s -> s <> "" ->
     dict_get (load_csv_row (write_line r)) dc = Some (PStr s)).
Proof.
  intros Hin Hv. split.
  - intros z Hn ->. rewrite (write_line_cell r c (COL_MAP_source_in c dc Hin)), Hv.
    cbn [csv_cell]. apply coerce_numeric_Z_to_string.
  - intros s Hn -> Hs. rewrite (load_csv_row_write_line_get r c dc Hin).
    unfold load_value. rewrite (write_line_cell r c (COL_MAP_source_in c dc Hin)), Hv.
    rewrite Hn. cbn [csv_cell].
    apply String.eqb_neq in Hs. rewrite Hs. reflexivity.
Qed.

(* bulk loader batches *)

Lemma range_step_lt fuel i stop step j :
  In j (range_step fuel i stop step) -> (j < stop)%nat.
Proof.
  revert i. induction fuel as [|f IH]; intros i; simpl; [intros []|].
  destruct (Nat.ltb i stop) eqn:E; [|intros []].
  intros [<-|H]; [apply Nat.ltb_lt; exact E|exact (IH _ H)].
Qed.

Lemma range_batches_concat rows fuel i :
  (length rows - i <= fuel * BATCH_SIZE)%nat ->
  concat (map (batch_at rows) (range_step fuel i (length rows) BATCH_SIZE)) = skipn i rows.
Proof.
  revert i. induction fuel as [|f IH]; intros i Hf; cbn [range_step].
  - symmetry. apply skipn_all2. lia.
  - destruct (Nat.ltb i (length rows)) eqn:E; cbn [map concat].
    + rewrite IH by (unfold BATCH_SIZE in *; lia).
      unfold batch_at. rewrite Nat.add_comm, <- skipn_skipn. apply firstn_skipn.
    + apply Nat.ltb_ge in E. symmetry. apply skipn_all2. exact E.
Qed.

Lemma upsert_loop_batches client rows idxs w er :
  client_raises_Exceptions client ->
  snd (upsert_loop client rows idxs w er) = map (batch_at rows) idxs.
Proof.
  intros Hc. destruct (upsert_loop_report client rows idxs w er Hc) as [w' [er' [_ [_ H]]]].
  exact H.
Qed.

(** Rows of the submitted batches whose upsert returned, and of those
    whose upsert raised. *)
Fixpoint ok_rows (client : nat -> list dict -> option exc) (rows : list dict)
    (idxs : list nat) : nat :=
  match idxs with
  | [] => 0
  | i :: rest =>
      match client (i / BATCH_SIZE)%nat (batch_at rows i) with
      | None => length (batch_at rows i) + ok_rows client rows rest
      | Some _ => ok_rows client rows rest
      end
  end%nat.

Fixpoint failed_rows (client : nat -> list dict -> option exc) (rows : list dict)
    (idxs : list nat) : nat :=
  match idxs with
  | [] => 0
  | i :: rest =>
      match client (i / BATCH_SIZE)%nat (batch_at rows i) with
      | None => failed_rows client rows rest
      | Some _ => length (batch_at rows i) + failed_rows client rows rest
      end
  end%nat.

Definition batch_starts (rows : list dict) : list nat :=
  range_step (length rows) 0 (length rows) BATCH_SIZE.

Lemma upsert_loop_counts client rows idxs w er :
  client_raises_Exceptions client ->
  fst (upsert_loop client rows idxs w er)
  = Ok (w + ok_rows client rows idxs, er + failed_rows client rows idxs)%nat.
Proof.
  intros Hc. revert w er.
  induction idxs as [|i rest IH]; intros w er; cbn [upsert_loop ok_rows failed_rows].
  - rewrite !Nat.add_0_r. reflexivity.
  - destruct (client (i / BATCH_SIZE)%nat (batch_at rows i)) as [e|] eqn:Ec.
    + rewrite (Hc _ _ _ Ec).
      pose proof (IH w (er + length (batch_at rows i))%nat) as H.
      destruct (upsert_loop client rows rest w (er + length (batch_at rows i))) as [r c].
      simpl in *. rewrite H. f_equal. f_equal. lia.
    + pose proof (IH (w + length (batch_at rows i))%nat er) as H.
      destruct (upsert_loop client rows rest (w + length (batch_at rows i)) er) as [r c].
      simpl in *. rewrite H. f_equal. f_equal. lia.
Qed.

(** X7.  The batches [upsert_batches] submits, joined in order, are
    exactly the input rows, and each batch holds 1 to [BATCH_SIZE] rows. *)
Theorem upsert_batches_partition client rows :
  client_raises_Exceptions client ->
  concat (snd (upsert_batches client rows)) = rows
  /\ Forall (fun b => 1 <= length b <= BATCH_SIZE)%nat (snd (upsert_batches client rows)).
Proof.
  intros Hc. unfold upsert_batches. rewrite upsert_loop_batches by exact Hc. split.
  - rewrite range_batches_concat by (unfold BATCH_SIZE; lia). reflexivity.
  - apply Forall_forall. intros b Hb. apply in_map_iff in Hb. destruct Hb as [j [<- Hj]].
    apply range_step_lt in Hj. rewrite batch_at_length. unfold BATCH_SIZE in *. lia.
Qed.

(** X8.  The final report of [upsert_batches] counts as written exactly
    the rows of the batches whose upsert returned, and as errors exactly
    the rows of the batches whose upsert raised. *)
Theorem upsert_batches_counts client rows :
  client_raises_Exceptions client ->
  fst (upsert_batches client rows)
  = Ok (ok_rows client rows (batch_starts rows), failed_rows client rows (batch_starts rows)).
Proof.
  intros Hc. unfold upsert_batches, batch_starts. rewrite upsert_loop_counts by exact Hc.
  reflexivity.
Qed.

(* the daily updater's upsert calls *)

Definition fetched_rows (net : date -> Z -> outcome) (d : date) : list dict :=
  match fst (fetch_day_upd (net d) d) with Ok r => r | Raise _ => [] end.

Definition nonempty {A} (l : list A) : bool := match l with [] => false | _ => true end.

(** X9.  When no fetch raises and the client never raises, the daily
    updater calls upsert once per date that has records, oldest date
    first, with that date's records, and never with an empty list. *)
Theorem updater_loop_upserts {store} (g : store -> list dict -> store) net dates s :
  (forall d, In d dates -> exists rows, fst (fetch_day_upd (net d) d) = Ok rows) ->
  fst (updater_loop store (fun s rows => Ok (g s rows)) net dates s)
  = Ok (fold_left g (filter nonempty (map (fetched_rows net) dates)) s).
Proof.
  revert s. induction dates as [|d rest IH]; intros s Hf; [reflexivity|].
  cbn [updater_loop map].
  destruct (Hf d (or_introl eq_refl)) as [rows Hr].
  assert (Hf' : forall d', In d' rest -> exists rows, fst (fetch_day_upd (net d') d') = Ok rows)
    by (intros d' H; apply Hf; right; exact H).
  unfold fetched_rows at 1. rewrite Hr.
  destruct rows as [|r0 rs].
  - pose proof (IH s Hf') as H.
    destruct (updater_loop store _ net rest s) as [r l]. exact H.
  - cbn [upsert filter nonempty fold_left].
    pose proof (IH (g s (r0 :: rs)) Hf') as H.
    destruct (updater_loop store _ net rest (g s (r0 :: rs))) as [r l]. exact H.
Qed.

(* [load_csv_to_supabase.read_secrets_toml] *)

Definition is_quote (c : ascii) : bool :=
  (nat_of_ascii c =? 34)%nat || (nat_of_ascii c =? 39)%nat.

(** [re.sub(r'^["\']|["\']$', ...)]: a quote at the start, then one at the end
    of what is left. *)
Definition drop_first_quote (s : string) : string :=
  match s with
  | EmptyString => EmptyString
  | String c r => if is_quote c then r else s
  end.

Fixpoint drop_last_quote (s : string) : string :=
  match s with
  | EmptyString => EmptyString
  | String c r =>
      match r with
      | EmptyString => if is_quote c then EmptyString else s
      | _ => String c (drop_last_quote r)
      end
  end.

Definition strip_quotes (s : string) : string := drop_last_quote (drop_first_quote s).

(** [s.partition("=")] *)
Fixpoint partition_eq (s : string) : string * string * string :=
  match s with
  | EmptyString => (EmptyString, EmptyString, EmptyString)
  | String c r =>
      if Ascii.eqb c "="%char then (EmptyString, "=", r)
      else let '(a, b, d) := partition_eq r in (String c a, b, d)
  end.

(** ["=" in s] *)
Fixpoint contains_eq (s : string) : bool :=
  match s with
  | EmptyString => false
  | String c r => Ascii.eqb c "="%char || contains_eq r
  end.

(** [s.startswith("#")] *)
Definition starts_with_hash (s : string) : bool :=
  match s with
  | EmptyString => false
  | String c _ => Ascii.eqb c "#"%char
  end.

(** One iteration of the [for line in f] loop. *)
Definition secrets_step (secrets : dict) (line : string) : dict :=
  let line := py_strip line in
  if starts_with_hash line || negb (contains_eq line) then secrets
  else
    let '(k, _, v) := partition_eq line in
    dict_set secrets (py_strip k) (PStr (strip_quotes (py_strip v))).

(** [read_secrets_toml()]; [None] is a missing [.streamlit/secrets.toml],
    [Some ls] its lines as the file iterator yields them. *)
Definition read_secrets_toml (file : option (list string)) : dict :=
  match file with
  | None => []
  | Some ls => fold_left secrets_step ls []
  end.

(** The key a line assigns, if any. *)
Definition line_key (line : string) : option string :=
  let line := py_strip line in
  if starts_with_hash line || negb (contains_eq line) then None
  else let '(k, _, _) := partition_eq line in Some (py_strip k).

Lemma secrets_step_skip d l : line_key l = None -> secrets_step d l = d.
Proof.
  unfold line_key, secrets_step.
  destruct (starts_with_hash (py_strip l) || negb (contains_eq (py_strip l))); [reflexivity|].
  destruct (partition_eq (py_strip l)) as [[k b] v]. discriminate.
Qed.

Lemma secrets_step_other d l k :
  line_key l <> Some k -> dict_get (secrets_step d l) k = dict_get d k.
Proof.
  unfold line_key, secrets_step.
  destruct (starts_with_hash (py_strip l) || negb (contains_eq (py_strip l))); [reflexivity|].
  destruct (partition_eq (py_strip l)) as [[k' b] v]. intros Hne.
  apply dict_get_set_neq. congruence.
Qed.

Lemma fold_secrets_other d ls k :
  (forall l, In l ls -> line_key l <> Some k) ->
  dict_get (fold_left secrets_step ls d) k = dict_get d k.
Proof.
  revert d. induction ls as [|l r IH]; intros d H; [reflexivity|]. cbn [fold_left].
  rewrite IH by (intros l' Hl'; apply H; right; exact Hl').
  apply secrets_step_other. apply H. left. reflexivity.
Qed.

Lemma read_secrets_skip_line pre l post :
  line_key l = None ->
  read_secrets_toml (Some ((pre ++ l :: post)%list)) = read_secrets_toml (Some ((pre ++ post)%list)).
Proof.
  intros H. cbn [read_secrets_toml]. rewrite !fold_left_app. cbn [fold_left].
  rewrite secrets_step_skip by exact H. reflexivity.
Qed.

Fixpoint ends_nonspace (s : string) : bool :=
  match s with
  | EmptyString => false
  | String c EmptyString => negb (is_space c)
  | String _ r => ends_nonspace r
  end.

Fixpoint all_space (s : string) : bool :=
  match s with
  | EmptyString => true
  | String c r => is_space c && all_space r
  end.

Lemma rstrip_all_space t : all_space t = true -> rstrip t = EmptyString.
Proof.
  induction t as [|c r IH]; simpl; [reflexivity|].
  intros H. apply andb_true_iff in H. destruct H as [Hc Hr].
  rewrite IH by exact Hr. rewrite Hc. reflexivity.
Qed.

Lemma rstrip_app_spaces s t :
  ends_nonspace s = true -> all_space t = true -> rstrip (s ++ t) = s.
Proof.
  intros Hs Ht. induction s as [|c r IH]; [discriminate|].
  cbn [append rstrip]. destruct r as [|c' r'].
  - cbn [append]. rewrite rstrip_all_space by exact Ht.
    cbn in Hs. apply negb_true_iff in Hs. rewrite Hs. reflexivity.
  - rewrite IH by exact Hs. reflexivity.
Qed.

Lemma append_empty_r s : s ++ EmptyString = s.
Proof. induction s as [|c r IH]; [reflexivity|]. cbn [append]. rewrite IH. reflexivity. Qed.

Lemma rstrip_ends_nonspace s : ends_nonspace s = true -> rstrip s = s.
Proof.
  intros H. rewrite <- (rstrip_app_spaces s EmptyString H eq_refl) at 2.
  rewrite append_empty_r. reflexivity.
Qed.

Lemma ends_nonspace_snoc s c : ends_nonspace (s ++ String c EmptyString) = negb (is_space c).
Proof.
  induction s as [|a r IH]; [reflexivity|]. cbn [append ends_nonspace].
  destruct (r ++ String c EmptyString) eqn:E; [destruct r; discriminate|]. exact IH.
Qed.

Lemma partition_eq_app_noeq k t :
  contains_eq k = false ->
  partition_eq (k ++ t)
  = (k ++ fst (fst (partition_eq t)), snd (fst (partition_eq t)), snd (partition_eq t)).
Proof.
  induction k as [|c r IH]; intros H; cbn [append].
  - destruct (partition_eq t) as [[a b] d]. reflexivity.
  - cbn [contains_eq] in H. apply orb_false_iff in H. destruct H as [Hc Hr].
    cbn [partition_eq]. rewrite Hc, IH by exact Hr.
    destruct (partition_eq t) as [[a b] d]. reflexivity.
Qed.

Lemma partition_eq_app_eq s t :
  contains_eq s = true ->
  partition_eq (s ++ t)
  = (fst (fst (partition_eq s)), snd (fst (partition_eq s)), snd (partition_eq s) ++ t).
Proof.
  induction s as [|c r IH]; intros H; [discriminate|]. cbn [append partition_eq].
  cbn [contains_eq] in H. destruct (Ascii.eqb c "=") eqn:Hc; [reflexivity|].
  rewrite IH by exact H. destruct (partition_eq r) as [[a b] d]. reflexivity.
Qed.

Lemma contains_eq_app s t : contains_eq (s ++ t) = contains_eq s || contains_eq t.
Proof.
  induction s as [|c r IH]; [reflexivity|]. cbn [append contains_eq].
  rewrite IH, orb_assoc. reflexivity.
Qed.

Lemma drop_last_quote_cons a t :
  t <> EmptyString -> drop_last_quote (String a t) = String a (drop_last_quote t).
Proof. destruct t; [congruence|reflexivity]. Qed.

Lemma drop_last_quote_snoc s c : is_quote c = true -> drop_last_quote (s ++ String c EmptyString) = s.
Proof.
  intros Hq. induction s as [|a r IH].
  - cbn. rewrite Hq. reflexivity.
  - cbn [append]. rewrite drop_last_quote_cons by (destruct r; discriminate).
    rewrite IH. reflexivity.
Qed.

(** A key TOML can hold as a bare key on this parser: it starts and ends
    with a non-blank, does not start with [#] and has no [=]. *)
Definition key_ok (k : string) : bool :=
  match k with
  | EmptyString => false
  | String c _ => negb (is_space c) && negb (Ascii.eqb c "#"%char)
  end && ends_nonspace k && negb (contains_eq k).

Definition dquote : ascii := ascii_of_nat 34.
Definition newline : ascii := ascii_of_nat 10.

(** The line [KEY = "VALUE"] followed by a newline. *)
Definition assign_line (k v : string) : string :=
  ((k ++ String " " (String "=" (String " " (String dquote v))))
     ++ String dquote EmptyString) ++ String newline EmptyString.

Lemma assign_line_step d k v :
  key_ok k = true -> secrets_step d (assign_line k v) = dict_set d k (PStr v).
Proof.
  intros Hk. destruct k as [|c r]; [discriminate|].
  unfold key_ok in Hk. apply andb_true_iff in Hk. destruct Hk as [Hk Heq].
  apply andb_true_iff in Hk. destruct Hk as [Hc Hend].
  apply andb_true_iff in Hc. destruct Hc as [Hsp Hh].
  apply negb_true_iff in Hsp, Hh, Heq.
  set (k := String c r) in *.
  set (l' := (k ++ String " " (String "=" (String " " (String dquote v)))) ++ String dquote EmptyString).
  assert (Hs : py_strip (assign_line k v) = l').
  { unfold py_strip, assign_line. fold l'.
    assert (Hl : lstrip (l' ++ String newline EmptyString) = l' ++ String newline EmptyString)
      by (subst l' k; cbn [append lstrip]; rewrite Hsp; reflexivity).
    rewrite Hl. apply rstrip_app_spaces; [|reflexivity].
    unfold l'. rewrite ends_nonspace_snoc. reflexivity. }
  unfold secrets_step. rewrite Hs.
  assert (Hst : starts_with_hash l' = false) by (subst l' k; exact Hh).
  assert (Hce : contains_eq l' = true).
  { unfold l'. rewrite !contains_eq_app. cbn [contains_eq]. rewrite orb_true_r. reflexivity. }
  rewrite Hst, Hce. cbn [orb negb].
  unfold l'. rewrite partition_eq_app_eq
    by (rewrite contains_eq_app; cbn [contains_eq]; rewrite orb_true_r; reflexivity).
  rewrite partition_eq_app_noeq by exact Heq.
  assert (Hp : partition_eq (String " " (String "=" (String " " (String dquote v))))
               = (String " " EmptyString, "=", String " " (String dquote v))) by reflexivity.
  rewrite Hp. cbn [fst snd].
  f_equal.
  - unfold py_strip.
    assert (Hl : lstrip (k ++ String " " EmptyString) = k ++ String " " EmptyString)
      by (subst k; cbn [append lstrip]; rewrite Hsp; reflexivity).
    rewrite Hl. apply rstrip_app_spaces; [exact Hend|reflexivity].
  - f_equal. unfold py_strip. cbn [append lstrip].
    change (is_space " ") with true. cbn iota.
    change (is_space dquote) with false. cbn iota.
    assert (He : ends_nonspace (String dquote v ++ String dquote EmptyString) = true)
      by (rewrite ends_nonspace_snoc; reflexivity).
    cbn [append] in He. rewrite (rstrip_ends_nonspace _ He).
    unfold strip_quotes. cbn [drop_first_quote].
    change (is_quote dquote) with true. cbn iota.
    apply drop_last_quote_snoc. reflexivity.
Qed.

(** X10.  A line [KEY = "VALUE"] of [secrets.toml] gives [KEY] the value
    [VALUE] verbatim, quotes removed, unless a later line assigns [KEY]
    again. *)
Theorem read_secrets_last_assignment pre post k v :
  key_ok k = true ->
  (forall l, In l post -> line_key l <> Some k) ->
  dict_get (read_secrets_toml (Some ((pre ++ assign_line k v :: post)%list))) k = Some (PStr v).
Proof.
  intros Hk Hpost. cbn [read_secrets_toml]. rewrite fold_left_app. cbn [fold_left].
  rewrite fold_secrets_other by exact Hpost.
  rewrite assign_line_step by exact Hk. apply dict_get_set_eq.
Qed.

(* [load_csv_to_supabase.get_client] *)

(** [a or b] *)
Definition py_or (a b : pyval) : pyval := if py_truthy a then a else b.

(** [d.get(k)] *)
Definition get_or_None (o : option pyval) : pyval :=
  match o with Some v => v | None => PNone end.

(** [os.environ.get(name)] *)
Definition env_get (environ : string -> option string) (name : string) : pyval :=
  match environ name with Some s => PStr s | None => PNone end.

(** What [read_secrets_toml()] finds at [.streamlit/secrets.toml]: no such
    path ([os.path.exists] is false), a path it cannot read ([open] raises
    [OSError] for a directory or a file without read permission, and the
    iteration over the lines raises [UnicodeDecodeError] for bytes that are
    not UTF-8), or a text file with its lines. *)
Inductive secrets_file :=
| SecretsMissing
| SecretsUnreadable (e : exc)
| SecretsLines (ls : list string).

(** [read_secrets_toml()] with the exceptions it lets escape. *)
Definition read_secrets_file (f : secrets_file) : result dict :=
  match f with
  | SecretsMissing => Ok (read_secrets_toml None)
  | SecretsUnreadable e => Raise e
  | SecretsLines ls => Ok (read_secrets_toml (Some ls))
  end.

(** [get_client()]: [Ok (url, key)] is the call [create_client(url, key)];
    [Raise SystemExit] is [sys.exit(1)]. *)
Definition get_client_loader (environ : string -> option string)
    (f : secrets_file) : result (pyval * pyval) :=
  secrets <- read_secrets_file f ;;
  let url := py_or (env_get environ "SUPABASE_URL") (get_or_None (dict_get secrets "SUPABASE_URL")) in
  let key := py_or (env_get environ "SUPABASE_KEY") (get_or_None (dict_get secrets "SUPABASE_KEY")) in
  if negb (py_truthy url) || negb (py_truthy key) then Raise SystemExit else Ok (url, key).

(** The value [get_client] takes for one setting. *)
Lemma env_or_secret environ secrets name :
  py_or (env_get environ name) (get_or_None (dict_get secrets name))
  = match environ name with
    | Some s => if String.eqb s "" then get_or_None (dict_get secrets name) else PStr s
    | None => get_or_None (dict_get secrets name)
    end.
Proof.
  unfold py_or, env_get. destruct (environ name) as [s|]; [|reflexivity].
  cbn [py_truthy]. destruct (String.eqb s ""); reflexivity.
Qed.

(** A value read from the secrets file is always a string. *)
Lemma secrets_step_str d l k v :
  (forall v', dict_get d k = Some v' -> exists s, v' = PStr s) ->
  dict_get (secrets_step d l) k = Some v -> exists s, v = PStr s.
Proof.
  intros Hd. unfold secrets_step.
  destruct (starts_with_hash (py_strip l) || negb (contains_eq (py_strip l))); [exact (Hd v)|].
  destruct (partition_eq (py_strip l)) as [[k' b] v0].
  destruct (String.eqb (py_strip k') k) eqn:E.
  - apply String.eqb_eq in E. subst. rewrite dict_get_set_eq. intros H. injection H as <-. eexists. reflexivity.
  - apply String.eqb_neq in E. rewrite dict_get_set_neq by exact E. exact (Hd v).
Qed.

Lemma read_secrets_str file k v :
  dict_get (read_secrets_toml file) k = Some v -> exists s, v = PStr s.
Proof.
  destruct file as [ls|]; [|discriminate]. cbn [read_secrets_toml].
  assert (H0 : forall v', dict_get [] k = Some v' -> exists s, v' = PStr s) by discriminate.
  revert H0. generalize (@nil (string * pyval)) as d.
  induction ls as [|l r IH]; intros d Hd; cbn [fold_left]; [exact (Hd v)|].
  apply IH. intros v'. apply secrets_step_str. exact Hd.
Qed.

Lemma setting_choice environ file name :
  py_truthy (py_or (env_get environ name) (get_or_None (dict_get (read_secrets_toml file) name))) = true ->
  exists u, py_or (env_get environ name) (get_or_None (dict_get (read_secrets_toml file) name)) = PStr u
    /\ u <> ""
    /\ (environ name = Some u
        \/ ((environ name = None \/ environ name = Some "")
            /\ dict_get (read_secrets_toml file) name = Some (PStr u))).
Proof.
  rewrite env_or_secret.
  assert (Hsec : (environ name = None \/ environ name = Some "") ->
            py_truthy (get_or_None (dict_get (read_secrets_toml file) name)) = true ->
            exists u, get_or_None (dict_get (read_secrets_toml file) name) = PStr u
              /\ u <> ""
              /\ (environ name = Some u
                  \/ ((environ name = None \/ environ name = Some "")
                      /\ dict_get (read_secrets_toml file) name = Some (PStr u)))).
  { intros Henv Ht. destruct (dict_get (read_secrets_toml file) name) as [v|] eqn:Ed;
      [|discriminate].
    destruct (read_secrets_str _ _ _ Ed) as [u ->]. cbn in Ht |- *.
    apply negb_true_iff, String.eqb_neq in Ht.
    exists u. split; [reflexivity|]. split; [exact Ht|]. right. split; [exact Henv|reflexivity]. }
  destruct (environ name) as [s|] eqn:Es.
  - destruct (String.eqb s "") eqn:E0.
    + apply String.eqb_eq in E0. subst s. apply Hsec. right. reflexivity.
    + intros _. exists s. split; [reflexivity|]. split; [apply String.eqb_neq; exact E0|].
      left. reflexivity.
  - apply Hsec. left. reflexivity.
Qed.

(** A setting [get_client] finds falsy is unset or empty in the environment
    and empty or absent in the secrets file. *)
Lemma setting_missing environ file name :
  py_truthy (py_or (env_get environ name) (get_or_None (dict_get (read_secrets_toml file) name))) = false ->
  (environ name = None \/ environ name = Some "")
  /\ (forall u, dict_get (read_secrets_toml file) name = Some (PStr u) -> u = "").
Proof.
  rewrite env_or_secret.
  assert (Hsec : py_truthy (get_or_None (dict_get (read_secrets_toml file) name)) = false ->
            forall u, dict_get (read_secrets_toml file) name = Some (PStr u) -> u = "").
  { intros Ht u Ed. rewrite Ed in Ht. cbn in Ht.
    apply negb_false_iff, String.eqb_eq in Ht. exact Ht. }
  destruct (environ name) as [s|] eqn:Es.
  - destruct (String.eqb s "") eqn:E0.
    + apply String.eqb_eq in E0. subst s. intros Ht.
      split; [right; reflexivity | exact (Hsec Ht)].
    + cbn [py_truthy]. rewrite E0. discriminate.
  - intros Ht. split; [left; reflexivity | exact (Hsec Ht)].
Qed.

(** [get_client] on the secrets read from an existing file or from none. *)
Lemma get_client_on_secrets environ file :
  let secrets := read_secrets_toml file in
  let url := py_or (env_get environ "SUPABASE_URL") (get_or_None (dict_get secrets "SUPABASE_URL")) in
  let key := py_or (env_get environ "SUPABASE_KEY") (get_or_None (dict_get secrets "SUPABASE_KEY")) in
  match (if negb (py_truthy url) || negb (py_truthy key) then Raise SystemExit else Ok (url, key)) with
  | Ok (url, key) =>
      (exists u, url = PStr u /\ u <> ""
       /\ (environ "SUPABASE_URL" = Some u
           \/ ((environ "SUPABASE_URL" = None \/ environ "SUPABASE_URL" = Some "")
               /\ dict_get secrets "SUPABASE_URL" = Some (PStr u))))
      /\ (exists k, key = PStr k /\ k <> ""
       /\ (environ "SUPABASE_KEY" = Some k
           \/ ((environ "SUPABASE_KEY" = None \/ environ "SUPABASE_KEY" = Some "")
               /\ dict_get secrets "SUPABASE_KEY" = Some (PStr k))))
  | Raise e =>
      e = SystemExit
      /\ (((environ "SUPABASE_URL" = None \/ environ "SUPABASE_URL" = Some "")
           /\ (forall u, dict_get secrets "SUPABASE_URL" = Some (PStr u) -> u = ""))
          \/ ((environ "SUPABASE_KEY" = None \/ environ "SUPABASE_KEY" = Some "")
              /\ (forall k, dict_get secrets "SUPABASE_KEY" = Some (PStr k) -> k = "")))
  end.
Proof.
  cbv zeta.
  pose proof (setting_choice environ file "SUPABASE_URL") as Hu.
  pose proof (setting_choice environ file "SUPABASE_KEY") as Hk.
  pose proof (setting_missing environ file "SUPABASE_URL") as Mu.
  pose proof (setting_missing environ file "SUPABASE_KEY") as Mk.
  destruct (py_truthy (py_or (env_get environ "SUPABASE_URL")
              (get_or_None (dict_get (read_secrets_toml file) "SUPABASE_URL")))) eqn:Eu;
  destruct (py_truthy (py_or (env_get environ "SUPABASE_KEY")
              (get_or_None (dict_get (read_secrets_toml file) "SUPABASE_KEY")))) eqn:Ek;
  cbn [negb orb].
  - destruct (Hu eq_refl) as [u [E1 R1]]. destruct (Hk eq_refl) as [k [E2 R2]].
    split; [exists u | exists k]; split; assumption.
  - split; [reflexivity | right; exact (Mk eq_refl)].
  - split; [reflexivity | left; exact (Mu eq_refl)].
  - split; [reflexivity | left; exact (Mu eq_refl)].
Qed.

(** X12.  [get_client] reads [secrets.toml] first: when the file cannot be
    read ([OSError], [UnicodeDecodeError]) that exception escapes whatever
    the environment holds.  Otherwise it calls [create_client] only with a
    non-empty URL and key, each the environment variable when that is set
    and non-empty and the [secrets.toml] value otherwise; and it exits with
    [SystemExit] only when the URL or the key is unset or empty in the
    environment and absent or empty in the file. *)
Theorem get_client_loader_precedence environ f :
  (forall e, get_client_loader environ (SecretsUnreadable e) = Raise e)
  /\ match read_secrets_file f with
     | Raise e => get_client_loader environ f = Raise e
     | Ok secrets =>
       match get_client_loader environ f with
       | Ok (url, key) =>
           (exists u, url = PStr u /\ u <> ""
            /\ (environ "SUPABASE_URL" = Some u
                \/ ((environ "SUPABASE_URL" = None \/ environ "SUPABASE_URL" = Some "")
                    /\ dict_get secrets "SUPABASE_URL" = Some (PStr u))))
           /\ (exists k, key = PStr k /\ k <> ""
            /\ (environ "SUPABASE_KEY" = Some k
                \/ ((environ "SUPABASE_KEY" = None \/ environ "SUPABASE_KEY" = Some "")
                    /\ dict_get secrets "SUPABASE_KEY" = Some (PStr k))))
       | Raise e =>
           e = SystemExit
           /\ (((environ "SUPABASE_URL" = None \/ environ "SUPABASE_URL" = Some "")
                /\ (forall u, dict_get secrets "SUPABASE_URL" = Some (PStr u) -> u = ""))
               \/ ((environ "SUPABASE_KEY" = None \/ environ "SUPABASE_KEY" = Some "")
                   /\ (forall k, dict_get secrets "SUPABASE_KEY" = Some (PStr k) -> k = "")))
       end
     end.
Proof.
  split; [intros e; reflexivity|].
  destruct f as [|e|ls]; cbn [read_secrets_file get_client_loader bind];
    [exact (get_client_on_secrets environ None) | reflexivity
    | exact (get_client_on_secrets environ (Some ls))].
Qed.

(* [app.load_data]: the paging loop *)

Definition page_size : Z := 1000.

(** The [while True] loop of [load_data].  [server offset limit] is the
    response of one GET (after [raise_for_status()]) for the page at
    [offset]; the loop returns the rows gathered (or the escaping error)
    and the offsets requested.  [fuel] bounds the iterations. *)
Fixpoint page_loop {A} (server : Z -> Z -> result (list A)) (fuel : nat)
    (offset : Z) (rows : list A) : result (list A) * list Z :=
  match fuel with
  | O => (Ok rows, [])
  | S f =>
      match server offset page_size with
      | Raise e => (Raise e, [offset])
      | Ok chunk =>
          let rows := (rows ++ chunk)%list in
          if (Z.of_nat (length chunk) <? page_size) || (100000 <? offset) then (Ok rows, [offset])
          else
            let '(r, offs) := page_loop server f (offset + page_size) rows in
            (r, offset :: offs)
      end
  end.

(** The rows [load_data] passes to [pd.DataFrame], and the offsets it
    requested, with enough fuel for the loop's 102 iterations at most. *)
Definition load_rows {A} (server : Z -> Z -> result (list A)) : result (list A) * list Z :=
  page_loop server 102 0 [].

Lemma page_loop_stops {A} (server : Z -> Z -> result (list A)) n i rows f :
  (i + n = 102)%nat -> (i <= 101)%nat ->
  page_loop server (n + f) (Z.of_nat i * page_size) rows
  = page_loop server n (Z.of_nat i * page_size) rows.
Proof.
  revert i rows. induction n as [|n IH]; intros i rows Hi Hi'.
  - lia.
  - cbn [Nat.add page_loop].
    destruct (server (Z.of_nat i * page_size) page_size) as [chunk|e]; [|reflexivity].
    destruct ((Z.of_nat (length chunk) <? page_size) || (100000 <? Z.of_nat i * page_size)) eqn:E;
      [reflexivity|].
    apply orb_false_iff in E. destruct E as [_ E]. apply Z.ltb_ge in E.
    replace (Z.of_nat i * page_size + page_size) with (Z.of_nat (S i) * page_size) by lia.
    destruct n as [|n'].
    + unfold page_size in E. lia.
    + rewrite (IH (S i)) by lia. reflexivity.
Qed.

Lemma page_loop_offsets {A} (server : Z -> Z -> result (list A)) n i rows :
  exists k, (k <= n)%nat
    /\ snd (page_loop server n (Z.of_nat i * page_size) rows)
       = map (fun j => Z.of_nat j * page_size) (seq i k).
Proof.
  revert i rows. induction n as [|n IH]; intros i rows; [exists 0%nat; split; reflexivity|].
  cbn [page_loop].
  destruct (server (Z.of_nat i * page_size) page_size) as [chunk|e];
    [|exists 1%nat; split; [lia|reflexivity]].
  destruct ((Z.of_nat (length chunk) <? page_size) || (100000 <? Z.of_nat i * page_size));
    [exists 1%nat; split; [lia|reflexivity]|].
  replace (Z.of_nat i * page_size + page_size) with (Z.of_nat (S i) * page_size) by lia.
  destruct (IH (S i) (rows ++ chunk)%list) as [k [Hk H]].
  destruct (page_loop server n (Z.of_nat (S i) * page_size) (rows ++ chunk)%list) as [r offs].
  exists (S k). split; [lia|]. cbn [snd] in *. rewrite H. reflexivity.
Qed.

(** X13.  The paging loop of [load_data] stops after at most 102
    requests whatever the server answers: it requests the offsets
    0, 1000, 2000, ... in order. *)
Theorem page_loop_fuel {A} (server : Z -> Z -> result (list A)) fuel :
  (102 <= fuel)%nat ->
  page_loop server fuel 0 [] = load_rows server
  /\ exists k, (k <= 102)%nat
       /\ snd (load_rows server) = map (fun j => Z.of_nat j * 1000) (seq 0 k).
Proof.
  intros Hf. split.
  - replace fuel with (102 + (fuel - 102))%nat by lia.
    exact (page_loop_stops server 102 0 [] (fuel - 102) eq_refl (le_0_n _)).
  - exact (page_loop_offsets server 102 0 []).
Qed.

Lemma firstn_app_skipn {A} m k (l : list A) :
  (firstn m l ++ firstn k (skipn m l))%list = firstn (m + k) l.
Proof.
  revert l. induction m as [|m IH]; intros l; [reflexivity|].
  destruct l as [|a l]; simpl; [destruct k; reflexivity|].
  rewrite IH. reflexivity.
Qed.

(** A table [T] served page by page: [offset] and [limit] as PostgREST
    applies them. *)
Definition table_server {A} (T : list A) (offset limit : Z) : result (list A) :=
  Ok (firstn (Z.to_nat limit) (skipn (Z.to_nat offset) T)).

Lemma page_loop_table {A} (T : list A) n i :
  (i + n = 102)%nat -> (i <= 101)%nat ->
  fst (page_loop (table_server T) n (Z.of_nat i * page_size)
         (firstn (Z.to_nat (Z.of_nat i * page_size)) T))
  = Ok (firstn (Z.to_nat 102000) T).
Proof.
  revert i. induction n as [|n IH]; intros i Hi Hi'; [lia|].
  cbn [page_loop]. unfold table_server at 1. cbv beta iota zeta.
  rewrite firstn_app_skipn.
  set (m := Z.to_nat (Z.of_nat i * page_size)).
  destruct ((Z.of_nat (length (firstn (Z.to_nat page_size) (skipn m T))) <? page_size)
            || (100000 <? Z.of_nat i * page_size)) eqn:E.
  - cbn [fst]. f_equal. apply orb_true_iff in E. destruct E as [E|E].
    + apply Z.ltb_lt in E. rewrite length_firstn, length_skipn in E.
      unfold page_size in *. subst m.
      rewrite !firstn_all2 by lia. reflexivity.
    + apply Z.ltb_lt in E. unfold page_size in *. subst m.
      f_equal. lia.
  - apply orb_false_iff in E. destruct E as [_ E]. apply Z.ltb_ge in E.
    destruct n as [|n']; [unfold page_size in E; lia|].
    replace (Z.of_nat i * page_size + page_size) with (Z.of_nat (S i) * page_size) by lia.
    replace (m + Z.to_nat page_size)%nat with (Z.to_nat (Z.of_nat (S i) * page_size))
      by (subst m; unfold page_size; lia).
    pose proof (IH (S i) ltac:(lia) ltac:(lia)) as H.
    destruct (page_loop (table_server T) (S n') (Z.of_nat (S i) * page_size)
                (firstn (Z.to_nat (Z.of_nat (S i) * page_size)) T)) as [r offs].
    exact H.
Qed.

(** X14.  Against a table served page by page, [load_data] gathers the
    table's first 102,000 rows in order: any row past these is dropped. *)
Theorem load_rows_table {A} (T : list A) :
  fst (load_rows (table_server T)) = Ok (firstn (Z.to_nat 102000) T).
Proof. exact (page_loop_table T 102 0 eq_refl (le_0_n _)). Qed.

(* [app._base_url] *)

(** [s.rstrip('/')] *)
Fixpoint rstrip_slash (s : string) : string :=
  match s with
  | EmptyString => EmptyString
  | String c r =>
      let r' := rstrip_slash r in
      if String.eqb r' "" && Ascii.eqb c "/"%char then "" else String c r'
  end.

(** [_base_url(table)], with [st.secrets['SUPABASE_URL']] as [supabase_url]. *)
Definition _base_url (supabase_url table : string) : string :=
  rstrip_slash supabase_url ++ "/rest/v1/" ++ table.

Fixpoint ends_with_slash (s : string) : bool :=
  match s with
  | EmptyString => false
  | String c EmptyString => Ascii.eqb c "/"%char
  | String _ r => ends_with_slash r
  end.

Lemma rstrip_slash_snoc s : rstrip_slash (s ++ "/") = rstrip_slash s.
Proof.
  induction s as [|c r IH]; [reflexivity|]. cbn [append rstrip_slash]. rewrite IH. reflexivity.
Qed.

Lemma rstrip_slash_id s : ends_with_slash s = false -> rstrip_slash s = s.
Proof.
  induction s as [|c r IH]; [reflexivity|]. intros H. cbn [rstrip_slash].
  destruct r as [|c' r'].
  - cbn in H |- *. rewrite H. reflexivity.
  - rewrite IH by exact H. reflexivity.
Qed.

(** X15.  [_base_url] ignores a trailing slash on the configured URL, and
    appends [/rest/v1/<table>] to a URL that does not end with one. *)
Theorem base_url_trailing_slash u table :
  _base_url (u ++ "/") table = _base_url u table
  /\ (ends_with_slash u = false -> _base_url u table = u ++ "/rest/v1/" ++ table).
Proof.
  unfold _base_url. split.
  - rewrite rstrip_slash_snoc. reflexivity.
  - intros H. rewrite rstrip_slash_id by exact H. reflexivity.
Qed.

(* the response shapes [fetch_day] handles *)

Definition status_ok (d : dict) : bool := in_None_or_1 (dict_get_default d "statusCode" PNone).

Definition is_dict (v : pyval) : bool := match v with PDict _ => true | _ => false end.

Section Collect.
Variable norm : dict -> dict.
Variable step : pyval -> result (option dict).
Hypothesis step_dict : forall d, step (PDict d) = Ok (if status_ok d then Some (norm d) else None).
Hypothesis step_other : forall v, is_dict v = false -> step v = Raise AttributeError.

Lemma collect_dicts ds :
  collect step (map PDict ds) = Ok (map norm (filter status_ok ds)).
Proof.
  induction ds as [|d r IH]; [reflexivity|]. cbn [map collect filter].
  rewrite step_dict. cbn [bind]. rewrite IH. cbn [bind].
  destruct (status_ok d); reflexivity.
Qed.

Lemma collect_non_dict recs :
  existsb (fun r => negb (is_dict r)) recs = true -> collect step recs = Raise AttributeError.
Proof.
  induction recs as [|v r IH]; [discriminate|]. cbn [existsb collect].
  destruct (is_dict v) eqn:Ev; cbn [negb orb].
  - intros H. destruct v; try discriminate. rewrite step_dict. cbn [bind].
    rewrite IH by exact H. reflexivity.
  - intros _. rewrite step_other by exact Ev. reflexivity.
Qed.

Lemma retry_loop_body net raw :
  net 1 = Body raw ->
  (forall ds, raw = PList (map PDict ds) ->
     fst (retry_loop step net 1 (Z.to_nat MAX_RETRIES)) = Ok (map norm (filter status_ok ds)))
  /\ (forall recs, raw = PList recs -> existsb (fun r => negb (is_dict r)) recs = true ->
     fst (retry_loop step net 1 (Z.to_nat MAX_RETRIES)) = Raise AttributeError)
  /\ ((forall l, raw <> PList l) -> (forall kv, raw <> PDict kv) ->
     fst (retry_loop step net 1 (Z.to_nat MAX_RETRIES)) = Ok []).
Proof.
  intros Hn. change (Z.to_nat MAX_RETRIES) with 4%nat. cbn [retry_loop].
  rewrite Hn. cbn [attempt_body]. split; [|split].
  - intros ds ->. cbn [response_records bind]. rewrite collect_dicts. reflexivity.
  - intros recs -> H. cbn [response_records bind]. rewrite collect_non_dict by exact H.
    reflexivity.
  - intros H1 H2. destruct raw; try reflexivity;
      [exfalso; eapply H1; reflexivity|exfalso; eapply H2; reflexivity].
Qed.
End Collect.

Lemma record_step_upd_dict gds d :
  record_step_upd gds (PDict d)
  = Ok (if status_ok d then Some (normalize_record_upd gds d) else None).
Proof.
  unfold record_step_upd, status_ok. cbn [as_dict bind].
  destruct (in_None_or_1 _); reflexivity.
Qed.

Lemma record_step_upd_other gds v :
  is_dict v = false -> record_step_upd gds v = Raise AttributeError.
Proof. destruct v; try reflexivity; discriminate. Qed.

Lemma record_step_iroq_dict gds d :
  record_step_iroq gds (PDict d)
  = Ok (if status_ok d then Some (normalize_record_iroq gds d) else None).
Proof.
  unfold record_step_iroq, status_ok. cbn [as_dict bind].
  destruct (in_None_or_1 _); reflexivity.
Qed.

Lemma record_step_iroq_other gds v :
  is_dict v = false -> record_step_iroq gds v = Raise AttributeError.
Proof. destruct v; try reflexivity; discriminate. Qed.

(** X16.  When the first request of [update_db.fetch_day] returns a JSON
    array of objects, the result is one row per record whose
    [statusCode] is absent, [None] or 1, in order; a record that is not
    an object makes [fetch_day] raise [AttributeError]; a body that is
    neither an array nor an object gives no rows. *)
Theorem fetch_day_upd_body net d raw :
  net 1 = Body raw ->
  (forall ds, raw = PList (map PDict ds) ->
     fst (fetch_day_upd net d)
     = Ok (map (normalize_record_upd (strftime_Y_m_d d)) (filter status_ok ds)))
  /\ (forall recs, raw = PList recs -> existsb (fun r => negb (is_dict r)) recs = true ->
     fst (fetch_day_upd net d) = Raise AttributeError)
  /\ ((forall l, raw <> PList l) -> (forall kv, raw <> PDict kv) ->
     fst (fetch_day_upd net d) = Ok []).
Proof.
  apply retry_loop_body.
  - apply record_step_upd_dict.
  - apply record_step_upd_other.
Qed.

(** X17.  The same for [fetch_iroquois_oac.fetch_day]: kept records in
    order, [AttributeError] on a record that is not an object, no rows
    for a body that is neither an array nor an object. *)
Theorem fetch_day_iroq_body net d raw :
  net 1 = Body raw ->
  (forall ds, raw = PList (map PDict ds) ->
     fst (fetch_day_iroq net d)
     = Ok (map (normalize_record_iroq (strftime_Y_m_d d)) (filter status_ok ds)))
  /\ (forall recs, raw = PList recs -> existsb (fun r => negb (is_dict r)) recs = true ->
     fst (fetch_day_iroq net d) = Raise AttributeError)
  /\ ((forall l, raw <> PList l) -> (forall kv, raw <> PDict kv) ->
     fst (fetch_day_iroq net d) = Ok []).
Proof.
  apply retry_loop_body.
  - apply record_step_iroq_dict.
  - apply record_step_iroq_other.
Qed.

(** X18.  [get_existing_dates] is empty for a missing file and for a
    header without [gas_date]; under the backfill's header it holds
    exactly the non-empty first cells of the non-blank rows. *)
Theorem get_existing_dates_first_column :
  get_existing_dates None = []
  /\ (forall h rows, str_mem "gas_date" h = false -> get_existing_dates (Some (h :: rows)) = [])
  /\ (forall rows g, In g (get_existing_dates (Some (CSV_COLUMNS :: rows)))
      <-> exists c cs, In (c :: cs) rows /\ g = c /\ c <> "").
Proof.
  split; [reflexivity|]. split.
  - intros h rows H. cbn [get_existing_dates]. rewrite H. reflexivity.
  - exact get_existing_dates_header.
Qed.

(* witnesses *)

Ltac never_raises :=
  let d := fresh "d" in let Hd := fresh "Hd" in
  intros d Hd; vm_compute in Hd;
  repeat (destruct Hd as [<-|Hd]; [eexists; vm_compute; reflexivity|]);
  destruct Hd.

Definition d20100101 : date := mkdate 2010 1 1.
Definition d20100103 : date := mkdate 2010 1 3.

Lemma backfill_fresh_run_witness :
  fst (backfill d20100101 d20100103 net_every_day None None)
  = Some (CSV_COLUMNS :: flat_map (day_rows net_every_day) (date_range d20100101 d20100103)).
Proof.
  assert (Hne : date_range d20100101 d20100103 <> []) by (vm_compute; discriminate).
  assert (Hf : fetch_never_raises net_every_day (date_range d20100101 d20100103)) by never_raises.
  rewrite (backfill_fresh_run d20100101 d20100103 net_every_day Hne Hf). reflexivity.
Defined.

(** An endpoint with a record on 2010-01-01 and 2010-01-03 only. *)
Definition net_odd_days (d : date) (_ : Z) : outcome :=
  if (day d =? 2) then Body (PList []) else Body (PList [PDict recX_fields]).

Lemma backfill_resume_after_complete_run_witness :
  snd (backfill d20100101 d20100103 net_odd_days None
         (fst (backfill d20100101 d20100103 net_odd_days None None)))
  = [mkdate 2010 1 2].
Proof.
  assert (Hne : date_range d20100101 d20100103 <> []) by (vm_compute; discriminate).
  assert (Hf : fetch_never_raises net_odd_days (date_range d20100101 d20100103)) by never_raises.
  rewrite (backfill_resume_after_complete_run d20100101 d20100103 net_odd_days
             eq_refl eq_refl Hne Hf).
  vm_compute. reflexivity.
Defined.

Lemma backfill_killed_run_witness :
  backfill d20100101 d20100103 net_odd_days (Some 1%nat) None
  = (Some [CSV_COLUMNS; rowX_on "2010-01-01"], [d20100101]).
Proof.
  assert (Hne : todo_dates d20100101 d20100103 None <> []) by (vm_compute; discriminate).
  assert (Hf : fetch_never_raises net_odd_days (todo_dates d20100101 d20100103 None))
    by never_raises.
  rewrite (proj2 (backfill_killed_run d20100101 d20100103 net_odd_days 1%nat None Hne Hf) eq_refl).
  vm_compute. reflexivity.
Defined.

Lemma normalize_record_upd_truthiness_witness :
  dict_get (normalize_record_upd "2025-06-10" [("Loc Name", PStr "")]) "loc_name" = Some PNone.
Proof.
  assert (Hin : In ("Loc Name", "loc_name") COL_MAP) by (simpl; tauto).
  exact (proj1 (normalize_record_upd_truthiness "2025-06-10" [("Loc Name", PStr "")]
                  "Loc Name" "loc_name" (PStr "") Hin eq_refl) eq_refl).
Defined.

Lemma write_then_load_roundtrip_witness :
  coerce_numeric (PStr (nth (column_index CSV_COLUMNS "OAC") (write_line [("OAC", PInt (-12345))]) ""))
  = PInt (-12345).
Proof.
  assert (Hin : In ("OAC", "oac") COL_MAP) by (simpl; tauto).
  exact (proj1 (write_then_load_roundtrip [("OAC", PInt (-12345))] "OAC" "oac" (PInt (-12345))
                  Hin eq_refl) (-12345) eq_refl eq_refl).
Defined.

(** A client whose second upsert call fails. *)
Definition client_second_fails (n : nat) (_ : list dict) : option exc :=
  if Nat.eqb n 1 then Some StoreError else None.

Lemma client_second_fails_Exceptions : client_raises_Exceptions client_second_fails.
Proof.
  intros n b e H. unfold client_second_fails in H.
  destruct (Nat.eqb n 1); [injection H as <-; reflexivity|discriminate].
Qed.

Lemma upsert_batches_partition_witness :
  concat (snd (upsert_batches client_second_fails (repeat [] 1001)))
  = repeat [] 1001.
Proof.
  exact (proj1 (upsert_batches_partition client_second_fails (repeat [] 1001)
                  client_second_fails_Exceptions)).
Defined.

Lemma upsert_batches_counts_witness :
  fst (upsert_batches client_second_fails (repeat [] 1001)) = Ok (501, 500)%nat.
Proof.
  rewrite (upsert_batches_counts client_second_fails (repeat [] 1001)
             client_second_fails_Exceptions).
  vm_compute. reflexivity.
Defined.

Lemma updater_loop_upserts_witness :
  fst (updater_loop (list (list dict)) (fun s rows => Ok (s ++ [rows])%list) net_odd_days
         (date_range d20100101 d20100103) [])
  = Ok (filter nonempty (map (fetched_rows net_odd_days) (date_range d20100101 d20100103))).
Proof.
  assert (Hf : forall d, In d (date_range d20100101 d20100103) ->
                 exists rows, fst (fetch_day_upd (net_odd_days d) d) = Ok rows)
    by never_raises.
  rewrite (updater_loop_upserts (fun s rows => (s ++ [rows])%list) net_odd_days
             (date_range d20100101 d20100103) [] Hf).
  vm_compute. reflexivity.
Defined.

Lemma read_secrets_last_assignment_witness :
  dict_get (read_secrets_toml
              (Some ["# Supabase"; assign_line "SUPABASE_URL" "https://x.supabase.co";
                     "SUPABASE_KEY = 'k'"]))
    "SUPABASE_URL"
  = Some (PStr "https://x.supabase.co").
Proof.
  assert (Hpost : forall l, In l ["SUPABASE_KEY = 'k'"] -> line_key l <> Some "SUPABASE_URL").
  { intros l [<-|[]]. vm_compute. discriminate. }
  exact (read_secrets_last_assignment ["# Supabase"] ["SUPABASE_KEY = 'k'"]
           "SUPABASE_URL" "https://x.supabase.co" eq_refl Hpost).
Defined.

Lemma page_loop_fuel_witness :
  page_loop (table_server [1; 2; 3]%Z) 200 0 [] = load_rows (table_server [1; 2; 3]%Z).
Proof.
  exact (proj1 (page_loop_fuel (table_server [1; 2; 3]%Z) 200 ltac:(lia))).
Defined.

Lemma fetch_day_upd_body_witness :
  fst (fetch_day_upd (net_every_day d20100101) d20100101)
  = Ok [normalize_record_upd "2010-01-01" recX_fields].
Proof.
  exact (proj1 (fetch_day_upd_body (net_every_day d20100101) d20100101
                  (PList [PDict recX_fields]) eq_refl) [recX_fields] eq_refl).
Defined.

Lemma fetch_day_iroq_body_witness :
  fst (fetch_day_iroq (fun _ => Body (PList [PDict recX_fields; PStr "x"])) d20100101)
  = Raise AttributeError.
Proof.
  exact (proj1 (proj2 (fetch_day_iroq_body (fun _ => Body (PList [PDict recX_fields; PStr "x"]))
                         d20100101 (PList [PDict recX_fields; PStr "x"]) eq_refl))
           [PDict recX_fields; PStr "x"] eq_refl eq_refl).
Defined.

(** X11.  A line of [secrets.toml] that starts with [#] or has no [=]
    (after stripping) changes nothing in what [read_secrets_toml] returns. *)
Theorem read_secrets_ignored_line pre l post :
  starts_with_hash (py_strip l) = true \/ contains_eq (py_strip l) = false ->
  read_secrets_toml (Some (pre ++ l :: post)%list) = read_secrets_toml (Some (pre ++ post)%list).
Proof.
  intros H. apply read_secrets_skip_line. unfold line_key.
  destruct H as [H|H]; rewrite H; [reflexivity|].
  rewrite orb_true_r. reflexivity.
Qed.

Lemma read_secrets_ignored_line_witness :
  read_secrets_toml (Some ["  # SUPABASE_URL = 'old'"; "SUPABASE_URL = 'new'"; "[section]"])
  = read_secrets_toml (Some ["SUPABASE_URL = 'new'"]).
Proof.
  etransitivity;
    [exact (read_secrets_ignored_line [] "  # SUPABASE_URL = 'old'"
              ["SUPABASE_URL = 'new'"; "[section]"] (or_introl eq_refl))|].
  exact (read_secrets_ignored_line ["SUPABASE_URL = 'new'"] "[section]" []
           (or_intror eq_refl)).
Defined.
